(** * The broker manager of the Kafka client: metadata cache and dispatch

    A shallow embedding of [broker_manager.go].  The manager keeps two maps
    (broker id -> broker, topic -> partition id -> partition record) and a
    default-broker slot; it resolves partition leaders, refreshes the maps
    from metadata responses and sends requests with one bounded retry.

    Modelling choices.
    - Go maps are [gmap]s; [int32] keys are [Z] (no arithmetic is done on
      them).  A missing key reads as Go's nil.
    - The manager's methods run in a monad [M] that threads the manager, the
      outside world and a trace of what was sent and refreshed.
    - The only loop, in [sendToAny], has no bound in the source: it is run
      with fuel, and [None] stands for "did not return within the fuel".
    - A response object ([res], a pointer in the source) is passed to
      [sendAndReceive] and comes back with its new contents.
    - Topic names ([*string] in the source) are strings: no nil names.
    - The reader/writer lock is not modelled: the embedding is the code as
      one caller runs it. *)

From stdpp Require Import gmap strings list fin_maps.

Set Default Proof Using "Type".

(** ** Data model *)

(** Kafka error codes ([KError] in the source) are small integers. *)
Definition KError : Type := Z.
Bind Scope Z_scope with KError.

(** The values an [error] interface holds in this file.  The type switch of
    the source tells [EncodingError] from everything else; [ErrK] is a
    [KError] used as an error, [OutOfBrokers] is created by [sendToAny], and
    [OtherError] stands for any other error of a broker (transport, ...). *)
Inductive error : Type :=
| EncodingError (msg : string)
| ErrK (code : KError)
| OutOfBrokers
| OtherError (msg : string).

#[global] Instance error_eq_dec : EqDecision error.
Proof. solve_decision. Defined.

(** The arms of [switch err.(type)]: [case nil], [case EncodingError] and
    [default]. *)
Definition isBrokerError (err : option error) : bool :=
  match err with
  | None => false
  | Some (EncodingError _) => false
  | Some _ => true
  end.

(** Results of the functions that return [(value, error)] with exactly one
    of the two set. *)
Inductive result (A : Type) : Type :=
| Ok (a : A)
| Err (e : error).
Arguments Ok {A} a.
Arguments Err {A} e.

Module broker.
(** A broker endpoint.  Its declaration is outside this file; the fields are
    those of the metadata response's broker descriptor. *)
Record t : Type := mk { id : Z; host : string; port : Z }.
End broker.
Abbreviation broker := broker.t.

#[global] Instance broker_eq_dec : EqDecision broker.
Proof. solve_decision. Defined.

Module partitionMetadata.
Record t : Type := mk {
  err : KError;
  id : Z;
  leader : Z;
  replicas : list Z;
  isr : list Z }.
End partitionMetadata.
Abbreviation partitionMetadata := partitionMetadata.t.

Module topicMetadata.
Record t : Type := mk {
  err : KError;
  name : string;
  partitions : list partitionMetadata }.
End topicMetadata.
Abbreviation topicMetadata := topicMetadata.t.

Module metadata.
Record t : Type := mk {
  brokers : list broker;
  topics : list topicMetadata }.
End metadata.
Abbreviation metadata := metadata.t.

(** [new(metadata)]: the zero value. *)
Definition new_metadata : metadata := metadata.mk [] [].

Module metadataRequest.
Record t : Type := mk { topics : list string }.
End metadataRequest.
Abbreviation metadataRequest := metadataRequest.t.

(** ** What the manager takes from outside

    The world holds whatever the manager cannot see: the brokers'
    connections and the runtime's source of randomness.  The two error-code
    constants, the type of the client's id and the constructor of brokers
    are declared outside the file and are taken as they come. *)
Class Cluster : Type := {
  World : Type;
  ClientId : Type;
  NO_ERROR : KError;
  UNKNOWN_TOPIC_OR_PARTITION : KError;
  (** what the runtime draws when a [range] over a map starts *)
  entropy : World → nat * World;
  (** [newBroker(host, port)], which connects to the broker *)
  newBroker : string → Z → World → result broker * World;
}.

(** [b.sendAndReceive(clientID, req, res)] for a request type [Q] and a
    response object of type [R]: the outcome [(gotResponse, err)], the
    contents of [res] afterwards, and the world afterwards. *)
Class Exchange `{Cluster} (Q R : Type) : Type :=
  sendAndReceive : broker → ClientId → Q → R → World → (bool * option error * R) * World.

(** The [responseDecoder] interface. *)
Class responseDecoder (R : Type) : Type :=
  staleTopics : R → list string.

Module Client.
Record t `{Cluster} : Type := mk { id : ClientId }.
Arguments mk {_} _.
End Client.
Abbreviation Client := Client.t.

Module brokerManager.
Record t `{Cluster} : Type := mk {
  client : Client;
  defaultBroker : option broker;
  brokers : gmap Z broker;
  partitions : gmap string (gmap Z partitionMetadata) }.
Arguments mk {_} _ _ _ _.
End brokerManager.
Abbreviation brokerManager := brokerManager.t.

(** ** Traces *)

(** Where a [sendAndReceive] was called from. *)
Inductive callsite : Type := inSendToPartition | inSendToAny.

#[global] Instance callsite_eq_dec : EqDecision callsite.
Proof. solve_decision. Defined.

Inductive event : Type :=
| Sent (site : callsite) (b : broker)
| Refreshed (topics : list string).

(** Number of [sendAndReceive] calls made from [site]. *)
Fixpoint sendsFrom (site : callsite) (evs : list event) : nat :=
  match evs with
  | [] => 0
  | Sent s _ :: evs' => (if decide (s = site) then 1 else 0) + sendsFrom site evs'
  | Refreshed _ :: evs' => sendsFrom site evs'
  end.

(** Number of [sendAndReceive] calls, whoever made them. *)
Definition networkSends (evs : list event) : nat :=
  sendsFrom inSendToPartition evs + sendsFrom inSendToAny evs.

(** The topic lists of the refreshes, in order. *)
Fixpoint refreshes (evs : list event) : list (list string) :=
  match evs with
  | [] => []
  | Sent _ _ :: evs' => refreshes evs'
  | Refreshed ts :: evs' => ts :: refreshes evs'
  end.

(** ** Iteration order of a Go map

    A [range] over a map visits the keys in an order the runtime chooses.
    The choice is driven by a number drawn from the world: the keys are
    visited in the [n]-th permutation of their list, so every order can
    occur. *)
Definition nthPermutation {A} (n : nat) (l : list A) : list A :=
  default l (permutations l !! (n mod length (permutations l))).

Definition keys {V} (m : gmap Z V) : list Z := (map_to_list m).*1.

Section Manager.
Context `{Cluster}.

(** ** The monad *)

Record state : Type := mkState {
  bm : brokerManager;
  world : World;
  trace : list event }.

(** A computation takes the fuel for the loops under it and a state. *)
Definition M (A : Type) : Type := nat → state → option (A * state).

#[global] Instance M_ret : MRet M := λ A a _ s, Some (a, s).
#[global] Instance M_bind : MBind M := λ A B k m fuel s,
  match m fuel s with
  | Some (a, s') => k a fuel s'
  | None => None
  end.

Definition getBM : M brokerManager := λ _ s, Some (bm s, s).
Definition putBM (b : brokerManager) : M unit :=
  λ _ s, Some ((), mkState b (world s) (trace s)).
Definition emit (e : event) : M unit :=
  λ _ s, Some ((), mkState (bm s) (world s) (trace s ++ [e])).

(** [for id, _ := range m]: the keys in the order of this run. *)
Definition rangeKeys {V} (m : gmap Z V) : M (list Z) :=
  λ _ s, let '(n, w) := entropy (world s) in
         Some (nthPermutation n (keys m), mkState (bm s) w (trace s)).

(** A call of [b.sendAndReceive(bm.client.id, req, res)] made from [site]. *)
Definition exchange {Q R : Type} `{!Exchange Q R} (site : callsite) (b : broker) (req : Q) (res : R)
  : M (bool * option error * R) :=
  λ _ s, let '(out, w) := sendAndReceive b (Client.id (brokerManager.client (bm s))) req res (world s) in
         Some (out, mkState (bm s) w (trace s ++ [Sent site b])).

(** ** The manager *)

Definition setDefaultBroker (d : option broker) (b : brokerManager) : brokerManager :=
  brokerManager.mk (brokerManager.client b) d
    (brokerManager.brokers b) (brokerManager.partitions b).

Definition setBrokers (bs : gmap Z broker) (b : brokerManager) : brokerManager :=
  brokerManager.mk (brokerManager.client b) (brokerManager.defaultBroker b)
    bs (brokerManager.partitions b).

Definition setPartitions (ps : gmap string (gmap Z partitionMetadata)) (b : brokerManager)
  : brokerManager :=
  brokerManager.mk (brokerManager.client b) (brokerManager.defaultBroker b)
    (brokerManager.brokers b) ps.

Definition terminateBroker (id : Z) : M unit :=
  b ← getBM;
  putBM (setBrokers (delete id (brokerManager.brokers b)) b).

Definition getLeader (topic : string) (partition_id : Z) : M (option broker) :=
  b ← getBM;
  mret (match brokerManager.partitions b !! topic with
        | Some id_map =>
            match id_map !! partition_id with
            | Some partition => brokerManager.brokers b !! partitionMetadata.leader partition
            | None => None
            end
        | None => None
        end).

Definition getDefault : M (option broker) :=
  b ← getBM;
  match brokerManager.defaultBroker b with
  | Some d => mret (Some d)
  | None =>
      ids ← rangeKeys (brokerManager.brokers b);
      match ids with
      | id :: _ =>
          putBM (setDefaultBroker (brokerManager.brokers b !! id) b);;
          mret (brokerManager.brokers b !! id)
      | [] => mret None
      end
  end.

(** The loop of [sendToAny], [n] iterations at most. *)
Fixpoint sendToAny_loop {Q R : Type} `{!Exchange Q R} (n : nat) (req : Q) (res : R)
  : M (bool * option error * R) :=
  match n with
  | 0 => λ _ _, None
  | S n' =>
      d ← getDefault;
      match d with
      | None => mret (false, Some OutOfBrokers, res)
      | Some b =>
          '(gotResponse, err, res') ← exchange inSendToAny b req res;
          if isBrokerError err then
            (* broker error, so discard that broker *)
            m ← getBM;
            putBM (setDefaultBroker None m);;
            terminateBroker (broker.id b);;
            sendToAny_loop n' req res'
          else mret (gotResponse, err, res')
      end
  end.

Definition sendToAny {Q R : Type} `{!Exchange Q R} (req : Q) (res : R) : M (bool * option error * R) :=
  λ fuel, sendToAny_loop fuel req res fuel.

(** The two loops of [refreshTopics], run on the maps. *)
Definition putBrokers (bs : list broker) (m : gmap Z broker) : gmap Z broker :=
  foldl (λ m b, <[broker.id b := b]> m) m bs.

Fixpoint putPartitions (name : string) (ps : list partitionMetadata)
    (m : gmap string (gmap Z partitionMetadata))
  : gmap string (gmap Z partitionMetadata) * option KError :=
  match ps with
  | [] => (m, None)
  | partition :: ps' =>
      if decide (partitionMetadata.err partition ≠ NO_ERROR)
      then (m, Some (partitionMetadata.err partition))
      else putPartitions name ps'
             (alter (insert (partitionMetadata.id partition) partition) name m)
  end.

Fixpoint putTopics (ts : list topicMetadata) (m : gmap string (gmap Z partitionMetadata))
  : gmap string (gmap Z partitionMetadata) * option KError :=
  match ts with
  | [] => (m, None)
  | topic :: ts' =>
      if decide (topicMetadata.err topic ≠ NO_ERROR)
      then (m, Some (topicMetadata.err topic))
      else
        match putPartitions (topicMetadata.name topic) (topicMetadata.partitions topic)
                (<[topicMetadata.name topic := ∅]> m) with
        | (m', Some e) => (m', Some e)
        | (m', None) => putTopics ts' m'
        end
  end.

(** The part of [refreshTopics] that runs under the lock: the cache update
    from a decoded response. *)
Definition replaceFromMetadata (response : metadata) (b : brokerManager)
  : brokerManager * option error :=
  let b1 := setBrokers (putBrokers (metadata.brokers response) (brokerManager.brokers b)) b in
  let '(ps, e) := putTopics (metadata.topics response) (brokerManager.partitions b1) in
  (setPartitions ps b1, ErrK <$> e).

Definition refreshTopics `{!Exchange metadataRequest metadata} (topics : list string)
  : M (option error) :=
  emit (Refreshed topics);;
  '(_, err, response) ← sendToAny (metadataRequest.mk topics) new_metadata;
  match err with
  | Some e => mret (Some e)
  | None =>
      b ← getBM;
      let '(b', e) := replaceFromMetadata response b in
      putBM b';;
      mret e
  end.

Definition refreshTopic `{!Exchange metadataRequest metadata} (topic : string)
  : M (option error) :=
  refreshTopics [topic].

Definition getValidLeader `{!Exchange metadataRequest metadata}
    (topic : string) (partition_id : Z) : M (result broker) :=
  leader ← getLeader topic partition_id;
  match leader with
  | Some b => mret (Ok b)
  | None =>
      err ← refreshTopic topic;
      match err with
      | Some e => mret (Err e)
      | None =>
          leader ← getLeader topic partition_id;
          match leader with
          | Some b => mret (Ok b)
          | None => mret (Err (ErrK UNKNOWN_TOPIC_OR_PARTITION))
          end
      end
  end.

Definition partitionsForTopic `{!Exchange metadataRequest metadata} (topic : string)
  : M (result (list Z)) :=
  b ← getBM;
  match brokerManager.partitions b !! topic with
  | Some id_map => ids ← rangeKeys id_map; mret (Ok ids)
  | None =>
      err ← refreshTopic topic;
      match err with
      | Some e => mret (Err e)
      | None =>
          b ← getBM;
          match brokerManager.partitions b !! topic with
          | None => mret (Err (ErrK UNKNOWN_TOPIC_OR_PARTITION))
          | Some id_map => ids ← rangeKeys id_map; mret (Ok ids)
          end
      end
  end.

(** The second attempt of [sendToPartition]: resolve again, send once, and
    return that result as it is. *)
Definition sendToPartition_again {Q R : Type}
    `{!Exchange metadataRequest metadata, !Exchange Q R}
    (topic : string) (partition : Z) (req : Q) (res : R) : M (bool * option error * R) :=
  r ← getValidLeader topic partition;
  match r with
  | Err e => mret (false, Some e, res)
  | Ok b => exchange inSendToPartition b req res
  end.

Definition sendToPartition {Q R : Type}
    `{!Exchange metadataRequest metadata, !Exchange Q R, !responseDecoder R}
    (topic : string) (partition : Z) (req : Q) (res : R) : M (bool * option error * R) :=
  r ← getValidLeader topic partition;
  match r with
  | Err e => mret (false, Some e, res)
  | Ok b =>
      '(gotResponse, err, res1) ← exchange inSendToPartition b req res;
      match err return M (bool * option error * R) with
      | Some (EncodingError _) =>
          (* encoding errors are our problem, not the broker's *)
          mret (false, err, res1)
      | None =>
          if (gotResponse : bool) then
            let stale := staleTopics res1 in
            if decide (length stale = 0) then mret (true, None, res1)
            else
              err ← refreshTopics stale;
              match err with
              | Some e => mret (true, Some e, res1)
              | None => sendToPartition_again topic partition req res1
              end
          else mret (false, None, res1)
      | Some _ =>
          (* broker error, so discard that broker *)
          terminateBroker (broker.id b);;
          sendToPartition_again topic partition req res1
      end
  end.

(** [newBrokerManager]: the manager starts with the bootstrap broker in the
    default slot and two empty maps, and fetches the metadata of all topics
    (an empty topic list). *)
Definition newBrokerManager `{!Exchange metadataRequest metadata}
    (client : Client) (host : string) (port : Z) (fuel : nat) (w : World)
  : option (result brokerManager * World) :=
  let '(r, w1) := newBroker host port w in
  match r with
  | Err e => Some (Err e, w1)
  | Ok b =>
      match refreshTopics [] fuel (mkState (brokerManager.mk client (Some b) ∅ ∅) w1 []) with
      | Some (Some e, s) => Some (Err e, world s)
      | Some (None, s) => Some (Ok (bm s), world s)
      | None => None
      end
  end.

End Manager.

(** ** Specification vocabulary *)

Section Vocabulary.
Context `{Cluster}.

(** Every broker of the map is stored under its own id.  [refreshTopics] is
    the only writer of the map and writes [bm.brokers[broker.id] = broker],
    so every manager built by the code satisfies it. *)
Definition wf (b : brokerManager) : Prop :=
  map_Forall (λ k v, broker.id v = k) (brokerManager.brokers b).

#[global] Instance wf_dec (b : brokerManager) : Decision (wf b).
Proof. unfold wf. apply _. Defined.

(** The brokers the manager can reach for: the default one and the map's. *)
Definition known (b : brokerManager) (x : broker) : Prop :=
  brokerManager.defaultBroker b = Some x ∨
  ∃ k, brokerManager.brokers b !! k = Some x.

(** [m] returns [a] in state [s'] from [s], whatever fuel above some bound
    it is given. *)
Definition returns {A} (m : M A) (s : state) (a : A) (s' : state) : Prop :=
  ∃ n, ∀ fuel, n ≤ fuel → m fuel s = Some (a, s').

Definition terminates {A} (m : M A) (s : state) : Prop :=
  ∃ a s', returns m s a s'.

(** The error codes of a response in response order: each topic's code,
    then the codes of its partitions. *)
Definition errorCodes (ts : list topicMetadata) : list KError :=
  ts ≫= λ t, topicMetadata.err t :: (partitionMetadata.err <$> topicMetadata.partitions t).

(** The first code that is not [NO_ERROR], if any. *)
Definition firstError (codes : list KError) : option KError :=
  head (filter (λ e, e ≠ NO_ERROR) codes).

(** The inner map made of a list of partition records, in order. *)
Definition partitionMap (ps : list partitionMetadata) : gmap Z partitionMetadata :=
  foldl (λ m p, <[partitionMetadata.id p := p]> m) ∅ ps.

(** The state in which the loop of [sendToAny] goes round again after a broker error. *)
Definition discarded (b : broker) (s : state) : state :=
  mkState (setBrokers (delete (broker.id b) (brokerManager.brokers (bm s)))
             (setDefaultBroker None (bm s)))
          (world s) (trace s).

(** A record or a topic free of error codes. *)
Definition partitionOk (p : partitionMetadata) : Prop :=
  partitionMetadata.err p = NO_ERROR.

Definition topicOk (t : topicMetadata) : Prop :=
  topicMetadata.err t = NO_ERROR ∧ Forall partitionOk (topicMetadata.partitions t).

#[global] Instance partitionOk_dec p : Decision (partitionOk p).
Proof. unfold partitionOk. apply _. Defined.

#[global] Instance topicOk_dec t : Decision (topicOk t).
Proof. unfold topicOk. apply _. Defined.

(** The outer map after each topic of [ts], in order, had its inner map
    replaced wholesale by the one of its partition list. *)
Definition replaced (ts : list topicMetadata) (m : gmap string (gmap Z partitionMetadata))
  : gmap string (gmap Z partitionMetadata) :=
  foldl (λ m t, <[topicMetadata.name t := partitionMap (topicMetadata.partitions t)]> m) m ts.

(** The state in which [refreshTopics] calls [sendToAny]. *)
Definition refreshing (topics : list string) (s : state) : state :=
  mkState (bm s) (world s) (trace s ++ [Refreshed topics]).

End Vocabulary.

(** ** A scripted cluster

    A concrete world to run the manager in: the list of the replies that
    the next exchanges will get, whoever the broker is.  A reply carries
    both payloads; a metadata exchange decodes the first one, any other
    exchange the second one (the topics the response reports as stale). *)

Module Scripted.

Record reply : Type := mkReply {
  gotResponse : bool;
  failure : option error;
  decodedMetadata : metadata;
  decodedStale : list string }.

Definition cluster : Cluster := {|
  World := list reply;
  ClientId := string;
  NO_ERROR := 0;
  UNKNOWN_TOPIC_OR_PARTITION := 3;
  entropy := λ w, (0, w);
  newBroker := λ host port w, (Ok (broker.mk (-1) host port), w) |}.

(** With no reply left the connection fails. *)
Definition metadataExchange : @Exchange cluster metadataRequest metadata :=
  λ _ _ _ res w,
    match w with
    | [] => ((false, Some (OtherError "connection refused"), res), [])
    | r :: w' => ((gotResponse r, failure r, decodedMetadata r), w')
    end.

Definition requestExchange : @Exchange cluster string (list string) :=
  λ _ _ _ res w,
    match w with
    | [] => ((false, Some (OtherError "connection refused"), res), [])
    | r :: w' => ((gotResponse r, failure r, decodedStale r), w')
    end.

Definition decoder : responseDecoder (list string) := λ res, res.

Definition b1 : broker := broker.mk 1 "kafka1" 9092.
Definition b2 : broker := broker.mk 2 "kafka2" 9092.
Definition bootstrap : broker := broker.mk (-1) "kafka1" 9092.

Definition record (id leader : Z) : partitionMetadata :=
  partitionMetadata.mk 0 id leader [leader] [leader].

Definition failed (id leader : Z) (code : KError) : partitionMetadata :=
  partitionMetadata.mk code id leader [leader] [leader].

(** A manager of client ["c"]. *)
Definition manager (d : option broker) (bs : list broker)
    (ps : list (string * list partitionMetadata)) : @brokerManager.t cluster :=
  @brokerManager.mk cluster (@Client.mk cluster "c") d
    (list_to_map ((λ b, (broker.id b, b)) <$> bs))
    (list_to_map ((λ tp, (tp.1, list_to_map ((λ p, (partitionMetadata.id p, p)) <$> tp.2))) <$> ps)).

Definition start (m : @brokerManager.t cluster) (script : list reply) : @state cluster :=
  @mkState cluster m script [].

(** Replies. *)
Definition answers (stale : list string) : reply :=
  mkReply true None new_metadata stale.

Definition describes (md : metadata) : reply :=
  mkReply true None md [].

Definition fails (e : error) : reply :=
  mkReply false (Some e) new_metadata [].

(** The leader of partition 0 of ["t"] has moved from broker 1 to broker 2,
    and the second answer still reports ["t"] as stale. *)
Definition moved : @state cluster :=
  start (manager None [b1] [("t", [record 0 1])])
    [ answers ["t"];
      describes (metadata.mk [b1; b2] [topicMetadata.mk 0 "t" [record 0 2]]);
      answers ["t"] ].

(** An exchange that never gets through. *)
Definition unreachable : @Exchange cluster string (list string) :=
  λ _ _ _ res w, ((false, Some (OtherError "connection refused"), res), w).

Definition topic (name : string) (ps : list partitionMetadata) : topicMetadata :=
  topicMetadata.mk 0 name ps.

(** The leader answers and reports nothing stale. *)
Definition settled : @state cluster :=
  start (manager None [b1] [("t", [record 0 1])]) [answers []].

(** No broker can be reached. *)
Definition outage : @state cluster :=
  start (manager (Some bootstrap) [b1; b2] []) [].

(** The request cannot be encoded. *)
Definition unencodable : @state cluster :=
  start (manager None [b1] [("t", [record 0 1])])
    [mkReply false (Some (EncodingError "message too large")) new_metadata []].

(** The leader reports ["t"] as stale and then nobody answers. *)
Definition stale_then_down : @state cluster :=
  start (manager None [b1] [("t", [record 0 1])]) [answers ["t"]].

(** A cold cache; the cluster describes two brokers and topic ["t"]. *)
Definition cold : @state cluster :=
  start (manager (Some bootstrap) [] [])
    [describes (metadata.mk [b1; b2] [topic "t" [record 0 1; record 1 2]])].

(** A cold cache; the response names a leader it lists no broker for. *)
Definition leaderless : @state cluster :=
  start (manager (Some bootstrap) [] [])
    [describes (metadata.mk [] [topic "t" [record 0 7]])].

(** The second topic of the response carries an error code on its second
    partition; the cache knew three partitions of that topic. *)
Definition partial : @state cluster :=
  start (manager (Some bootstrap) [b1] [("t", [record 0 1; record 1 1; record 2 1])])
    [describes (metadata.mk [b1; b2]
       [ topic "a" [record 0 2];
         topic "t" [record 0 2; failed 1 2 9; record 2 2];
         topic "z" [record 0 1] ])].

(** The state in which the response of [partial] has been decoded. *)
Definition partial_decoded : @state cluster :=
  @mkState cluster (manager (Some bootstrap) [b1] [("t", [record 0 1; record 1 1; record 2 1])])
    [] [Refreshed ["t"]; Sent inSendToAny bootstrap].

Definition partial_response : metadata :=
  metadata.mk [b1; b2]
    [ topic "a" [record 0 2];
      topic "t" [record 0 2; failed 1 2 9; record 2 2];
      topic "z" [record 0 1] ].

(** A metadata exchange that never gets through. *)
Definition deadMetadata : @Exchange cluster metadataRequest metadata :=
  λ _ _ _ res w, ((false, Some (OtherError "connection refused"), res), w).

(** The bootstrap broker times out and a broker of the map answers. *)
Definition failover : @state cluster :=
  start (manager (Some bootstrap) [b1; b2] []) [fails (OtherError "timeout"); answers []].

(** The leader of partition 0 of ["t"] is dead; broker 2 has taken over. *)
Definition dead_leader : @state cluster :=
  start (manager None [b1; b2] [("t", [record 0 1])])
    [ fails (OtherError "broken pipe");
      describes (metadata.mk [b2] [topic "t" [record 0 2]]);
      answers [] ].

(** A cold cache; the cluster does not know topic ["u"]. *)
Definition unknown : @state cluster :=
  start (manager (Some bootstrap) [] [])
    [describes (metadata.mk [b1] [topic "other" [record 0 1]])].

(** The client. *)
Definition me : @Client.t cluster := @Client.mk cluster "c".

(** What the cluster says to a new client. *)
Definition greeting : list reply :=
  [describes (metadata.mk [b1; b2] [topic "t" [record 0 1; record 1 2]])].

End Scripted.

(** ** Reasoning about runs *)

Section Runs.
Context `{Cluster}.

Ltac run :=
  cbv [mbind mret M_bind M_ret getBM putBM emit terminateBroker getLeader] in *;
  cbn [bm world trace fst snd] in *.

Lemma bind_run {A B} (m : M A) (k : A → M B) fuel s :
  (m ≫= k) fuel s =
    match m fuel s with Some (a, s') => k a fuel s' | None => None end.
Proof. reflexivity. Qed.

Lemma bind_inv {A B} (m : M A) (k : A → M B) fuel s r :
  (m ≫= k) fuel s = Some r →
  ∃ a s1, m fuel s = Some (a, s1) ∧ k a fuel s1 = Some r.
Proof.
  rewrite bind_run. destruct (m fuel s) as [[a s1]|]; [eauto | discriminate].
Qed.

Lemma returns_ret {A} (a : A) s : returns (mret a) s a s.
Proof. by exists 0. Qed.

Lemma returns_bind {A B} (m : M A) (k : A → M B) s a s1 b s2 :
  returns m s a s1 → returns (k a) s1 b s2 → returns (m ≫= k) s b s2.
Proof.
  intros [n1 H1] [n2 H2]. exists (n1 `max` n2). intros fuel Hf.
  rewrite bind_run, H1 by lia. apply H2. lia.
Qed.

Lemma returns_run {A} (m : M A) s a s' :
  returns m s a s' → ∃ fuel, m fuel s = Some (a, s').
Proof. intros [n Hn]. exists n. by apply Hn. Qed.

Lemma terminates_bind {A B} (m : M A) (k : A → M B) s :
  terminates m s →
  (∀ fuel a s1, m fuel s = Some (a, s1) → terminates (k a) s1) →
  terminates (m ≫= k) s.
Proof.
  intros (a & s1 & Hm) Hk.
  destruct (returns_run _ _ _ _ Hm) as [fuel Hrun].
  destruct (Hk _ _ _ Hrun) as (b & s2 & Hb).
  exists b, s2. eapply returns_bind; eauto.
Qed.

Lemma terminates_ret {A} (a : A) s : terminates (mret a) s.
Proof. exists a, s. apply returns_ret. Qed.

(** *** Traces *)

Lemma sendsFrom_app site evs1 evs2 :
  sendsFrom site (evs1 ++ evs2) = sendsFrom site evs1 + sendsFrom site evs2.
Proof.
  induction evs1 as [|[s b|ts] evs1 IH]; simpl; [done | | done].
  rewrite IH. lia.
Qed.

Lemma refreshes_app evs1 evs2 :
  refreshes (evs1 ++ evs2) = refreshes evs1 ++ refreshes evs2.
Proof.
  induction evs1 as [|[s b|ts] evs1 IH]; simpl; [done | done |].
  by rewrite IH.
Qed.

Lemma sendsFrom_Sent site site' bs :
  site ≠ site' → sendsFrom site' (Sent site <$> bs) = 0.
Proof.
  intros Hne. induction bs as [|b bs IH]; [done|].
  rewrite fmap_cons. cbn [sendsFrom]. rewrite IH.
  by destruct (decide (site = site')).
Qed.

Lemma refreshes_Sent site bs : refreshes (Sent site <$> bs) = [].
Proof. induction bs as [|b bs IH]; [done|]. by rewrite fmap_cons. Qed.

(** *** Map iteration *)

Lemma nthPermutation_Permutation {A} n (l : list A) : nthPermutation n l ≡ₚ l.
Proof.
  unfold nthPermutation.
  destruct (permutations l !! _) as [l'|] eqn:E; simpl; [|done].
  symmetry. apply permutations_Permutation. by eapply list_elem_of_lookup_2.
Qed.

Lemma elem_of_keys {V} (m : gmap Z V) k : k ∈ keys m ↔ is_Some (m !! k).
Proof.
  unfold keys. rewrite list_elem_of_fmap. split.
  - intros ([k' v] & -> & Hin). apply elem_of_map_to_list in Hin. eauto.
  - intros [v Hv]. exists (k, v). split; [done|]. by apply elem_of_map_to_list.
Qed.

Lemma keys_nil {V} (m : gmap Z V) : keys m = [] → m = ∅.
Proof.
  unfold keys. intros E. apply fmap_nil_inv in E.
  by apply map_to_list_empty_iff.
Qed.

Lemma rangeKeys_inv {V} (m : gmap Z V) fuel s ids s' :
  rangeKeys m fuel s = Some (ids, s') →
  ids ≡ₚ keys m ∧ bm s' = bm s ∧ trace s' = trace s.
Proof.
  unfold rangeKeys. destruct (entropy (world s)) as [n w].
  intros [= <- <-]. split; [apply nthPermutation_Permutation | done].
Qed.

Lemma rangeKeys_total {V} (m : gmap Z V) s :
  ∃ ids s', ∀ fuel, rangeKeys m fuel s = Some (ids, s').
Proof.
  unfold rangeKeys. destruct (entropy (world s)) as [n w].
  eexists _, _. intros fuel. reflexivity.
Qed.

(** *** The default broker *)

Lemma setDefaultBroker_id (b : brokerManager) :
  setDefaultBroker (brokerManager.defaultBroker b) b = b.
Proof. by destruct b. Qed.

Lemma getDefault_inv fuel s d s' :
  getDefault fuel s = Some (d, s') →
  trace s' = trace s ∧ bm s' = setDefaultBroker d (bm s) ∧
  match d with
  | Some b =>
      brokerManager.defaultBroker (bm s) = Some b ∨
      (brokerManager.defaultBroker (bm s) = None ∧
       ∃ k, brokerManager.brokers (bm s) !! k = Some b)
  | None =>
      brokerManager.defaultBroker (bm s) = None ∧ brokerManager.brokers (bm s) = ∅
  end.
Proof.
  unfold getDefault. intros Hrun.
  apply bind_inv in Hrun as (b & s1 & [= <- <-] & Hrun).
  destruct (brokerManager.defaultBroker (bm s)) as [d0|] eqn:Ed.
  - injection Hrun as <- <-. rewrite <- Ed, setDefaultBroker_id. rewrite Ed. auto.
  - apply bind_inv in Hrun as (ids & s2 & Hids & Hrun).
    apply rangeKeys_inv in Hids as (Hperm & Hbm & Htr).
    destruct ids as [|id ids].
    + injection Hrun as <- <-. rewrite Htr, Hbm, <- Ed, setDefaultBroker_id.
      repeat split; try done. apply keys_nil. by apply Permutation_nil_l in Hperm.
    + run. injection Hrun as <- <-. cbn.
      assert (Hin : id ∈ keys (brokerManager.brokers (bm s))).
      { rewrite <- Hperm. left. }
      apply elem_of_keys in Hin as [v Hv]. rewrite Hv.
      repeat split; eauto.
Qed.

Lemma getDefault_total s : ∃ d s', ∀ fuel, getDefault fuel s = Some (d, s').
Proof.
  unfold getDefault.
  destruct (brokerManager.defaultBroker (bm s)) as [d0|] eqn:Ed.
  - exists (Some d0), s. intros fuel. run. by rewrite Ed.
  - destruct (rangeKeys_total (brokerManager.brokers (bm s)) s) as (ids & s1 & Hn).
    destruct ids as [|id ids].
    + exists None, s1. intros fuel. run. by rewrite Ed, Hn.
    + eexists _, _. intros fuel. run. rewrite Ed, Hn. reflexivity.
Qed.

(** *** One exchange *)

Lemma exchange_inv {Q R : Type} `{!Exchange Q R} site b (req : Q) (res : R) fuel s out s' :
  exchange site b req res fuel s = Some (out, s') →
  bm s' = bm s ∧ trace s' = trace s ++ [Sent site b] ∧
  sendAndReceive b (Client.id (brokerManager.client (bm s))) req res (world s)
    = (out, world s').
Proof.
  unfold exchange. destruct (sendAndReceive _ _ _ _ _) as [out' w].
  by intros [= <- <-].
Qed.

Lemma exchange_total {Q R : Type} `{!Exchange Q R} site b (req : Q) (res : R) s :
  ∃ out s', ∀ fuel, exchange site b req res fuel s = Some (out, s').
Proof.
  unfold exchange. destruct (sendAndReceive _ _ _ _ _) as [out' w].
  eexists _, _. intros fuel. reflexivity.
Qed.

Lemma total_returns {A} (m : M A) s a s' :
  (∀ fuel, m fuel s = Some (a, s')) → returns m s a s'.
Proof. intros Hm. exists 0. auto. Qed.

(** *** Well-formed managers *)

Lemma wf_subseteq (b b' : brokerManager) :
  brokerManager.brokers b' ⊆ brokerManager.brokers b → wf b → wf b'.
Proof. intros Hsub Hwf k v Hk. apply Hwf. by eapply lookup_weaken. Qed.

(** *** The loop of [sendToAny] *)

Lemma sendToAny_loop_step {Q R : Type} `{!Exchange Q R} n (req : Q) (res : R) fuel s d s1 :
  getDefault fuel s = Some (d, s1) →
  sendToAny_loop (S n) req res fuel s =
    match d with
    | None => Some ((false, Some OutOfBrokers, res), s1)
    | Some b =>
        match exchange inSendToAny b req res fuel s1 with
        | Some ((gotResponse, err, res'), s2) =>
            if isBrokerError err
            then sendToAny_loop n req res' fuel (discarded b s2)
            else Some ((gotResponse, err, res'), s2)
        | None => None
        end
    end.
Proof.
  intros Hd. cbn [sendToAny_loop]. rewrite bind_run, Hd.
  destruct d as [b|]; [|done].
  rewrite bind_run. destruct (exchange _ _ _ _ _ _) as [[[[g e] r] s2]|]; [|done].
  by destruct (isBrokerError e).
Qed.

Lemma sendToAny_loop_inv {Q R : Type} `{!Exchange Q R} n (req : Q) (res : R) fuel s out s' :
  sendToAny_loop n req res fuel s = Some (out, s') →
  brokerManager.client (bm s') = brokerManager.client (bm s) ∧
  brokerManager.partitions (bm s') = brokerManager.partitions (bm s) ∧
  brokerManager.brokers (bm s') ⊆ brokerManager.brokers (bm s) ∧
  ∃ bs, trace s' = trace s ++ (Sent inSendToAny <$> bs) ∧
        Forall (known (bm s)) bs ∧
        (wf (bm s) → NoDup (broker.id <$> bs)).
Proof.
  revert res s. induction n as [|n IH]; intros res s Hrun; [done|].
  destruct (getDefault fuel s) as [[d s1]|] eqn:Hd;
    [| by cbn [sendToAny_loop] in Hrun; rewrite bind_run, Hd in Hrun].
  rewrite (sendToAny_loop_step _ _ _ _ _ _ _ Hd) in Hrun.
  apply getDefault_inv in Hd as (Htr1 & Hbm1 & Hd).
  destruct d as [b|].
  2:{ injection Hrun as <- <-. rewrite Hbm1. repeat split; try done.
      exists []. rewrite Htr1, app_nil_r. repeat split; try done. constructor. }
  destruct (exchange _ _ _ _ _ _) as [[[[g e] r] s2]|] eqn:Hx; [|done].
  apply exchange_inv in Hx as (Hbm2 & Htr2 & _).
  assert (Hkb : known (bm s) b).
  { destruct Hd as [Hd | [_ Hk]]; [by left | by right]. }
  destruct (isBrokerError e).
  2:{ injection Hrun as <- <-. rewrite Hbm2, Hbm1. repeat split; try done.
      exists [b]. rewrite Htr2, Htr1. repeat split; try done.
      - by constructor.
      - intros _. apply NoDup_singleton. }
  apply IH in Hrun as (Hc & Hp & Hb & bs & Htr & Hkn & Hnd).
  cbn in Hc, Hp, Hb, Htr, Hkn, Hnd. rewrite Hbm2, Hbm1 in Hc, Hp, Hb, Hkn, Hnd.
  cbn in Hc, Hp, Hb, Hkn, Hnd.
  repeat split; try done.
  { etrans; [exact Hb | apply delete_subseteq]. }
  exists (b :: bs). rewrite Htr, Htr2, Htr1, <- !(assoc_L (++)). repeat split; try done.
  - constructor; [done|]. eapply Forall_impl; [exact Hkn|].
    intros x [Hx | [k Hk]]; [done|]. right. exists k.
    cbn in Hk. by apply lookup_delete_Some in Hk as [_ Hk].
  - intros Hwf. rewrite fmap_cons. apply NoDup_cons. split.
    + intros Hin. apply list_elem_of_fmap in Hin as (x & Hid & Hin).
      rewrite Forall_forall in Hkn. apply Hkn in Hin as [Hx | [k Hk]]; [done|].
      cbn in Hk. apply lookup_delete_Some in Hk as [Hne Hk].
      apply Hwf in Hk. congruence.
    + apply Hnd. intros k v Hk. cbn in Hk.
      apply lookup_delete_Some in Hk as [_ Hk]. by apply Hwf.
Qed.

Lemma sendToAny_loop_total_None {Q R : Type} `{!Exchange Q R} (req : Q) k :
  ∀ (res : R) s,
    wf (bm s) → brokerManager.defaultBroker (bm s) = None →
    size (brokerManager.brokers (bm s)) ≤ k →
    ∃ out s', ∀ n fuel, k + 1 ≤ n → sendToAny_loop n req res fuel s = Some (out, s').
Proof.
  induction k as [|k IH]; intros res s Hwf Hnone Hsize.
  - destruct (getDefault_total s) as (d & s1 & Hd).
    destruct (getDefault_inv _ _ _ _ (Hd 0)) as (_ & _ & Hk).
    destruct d as [b|].
    + destruct Hk as [Hk | [_ [i Hi]]]; [congruence|].
      assert (brokerManager.brokers (bm s) = ∅) as Hemp
        by (apply map_size_empty_inv; lia).
      rewrite Hemp, lookup_empty in Hi. done.
    + eexists _, _. intros [|n] fuel Hn; [lia|].
      by rewrite (sendToAny_loop_step _ _ _ _ _ _ _ (Hd fuel)).
  - destruct (getDefault_total s) as (d & s1 & Hd).
    destruct (getDefault_inv _ _ _ _ (Hd 0)) as (_ & Hbm1 & Hk).
    destruct d as [b|].
    2:{ eexists _, _. intros [|n] fuel Hn; [lia|].
        by rewrite (sendToAny_loop_step _ _ _ _ _ _ _ (Hd fuel)). }
    destruct Hk as [Hk | [_ [i Hi]]]; [congruence|].
    pose proof (Hwf _ _ Hi) as Hid.
    destruct (exchange_total inSendToAny b req res s1) as ([[g e] r] & s2 & Hx).
    destruct (exchange_inv _ _ _ _ _ _ _ _ (Hx 0)) as (Hbm2 & _ & _).
    destruct (isBrokerError e) eqn:He.
    2:{ eexists _, _. intros [|n] fuel Hn; [lia|].
        by rewrite (sendToAny_loop_step _ _ _ _ _ _ _ (Hd fuel)), Hx, He. }
    destruct (IH r (discarded b s2)) as (out & s' & Hloop).
    { intros j v Hj. cbn in Hj. rewrite Hbm2, Hbm1 in Hj. cbn in Hj.
      apply lookup_delete_Some in Hj as [_ Hj]. by apply Hwf. }
    { done. }
    { cbn. rewrite Hbm2, Hbm1. cbn. rewrite map_size_delete_Some; [lia|].
      rewrite Hid. eauto. }
    exists out, s'. intros [|n] fuel Hn; [lia|].
    rewrite (sendToAny_loop_step _ _ _ _ _ _ _ (Hd fuel)), Hx, He.
    apply Hloop. lia.
Qed.

Lemma sendToAny_loop_total {Q R : Type} `{!Exchange Q R} (req : Q) (res : R) s :
  wf (bm s) →
  ∃ out s', ∀ n fuel,
    size (brokerManager.brokers (bm s)) + 2 ≤ n →
    sendToAny_loop n req res fuel s = Some (out, s').
Proof.
  intros Hwf.
  destruct (getDefault_total s) as (d & s1 & Hd).
  destruct (getDefault_inv _ _ _ _ (Hd 0)) as (_ & Hbm1 & Hk).
  destruct d as [b|].
  2:{ eexists _, _. intros [|n] fuel Hn; [lia|].
      by rewrite (sendToAny_loop_step _ _ _ _ _ _ _ (Hd fuel)). }
  destruct (exchange_total inSendToAny b req res s1) as ([[g e] r] & s2 & Hx).
  destruct (exchange_inv _ _ _ _ _ _ _ _ (Hx 0)) as (Hbm2 & _ & _).
  destruct (isBrokerError e) eqn:He.
  2:{ eexists _, _. intros [|n] fuel Hn; [lia|].
      by rewrite (sendToAny_loop_step _ _ _ _ _ _ _ (Hd fuel)), Hx, He. }
  destruct (sendToAny_loop_total_None req (size (brokerManager.brokers (bm s)))
              r (discarded b s2)) as (out & s' & Hloop).
  { intros j v Hj. cbn in Hj. rewrite Hbm2, Hbm1 in Hj. cbn in Hj.
    apply lookup_delete_Some in Hj as [_ Hj]. by apply Hwf. }
  { done. }
  { cbn. rewrite Hbm2, Hbm1. cbn. rewrite map_size_delete.
    destruct (_ !! _); simpl; lia. }
  exists out, s'. intros [|n] fuel Hn; [lia|].
  rewrite (sendToAny_loop_step _ _ _ _ _ _ _ (Hd fuel)), Hx, He.
  apply Hloop. lia.
Qed.

Lemma sendToAny_inv {Q R : Type} `{!Exchange Q R} (req : Q) (res : R) fuel s out s' :
  sendToAny req res fuel s = Some (out, s') →
  brokerManager.client (bm s') = brokerManager.client (bm s) ∧
  brokerManager.partitions (bm s') = brokerManager.partitions (bm s) ∧
  brokerManager.brokers (bm s') ⊆ brokerManager.brokers (bm s) ∧
  ∃ bs, trace s' = trace s ++ (Sent inSendToAny <$> bs) ∧
        Forall (known (bm s)) bs ∧
        (wf (bm s) → NoDup (broker.id <$> bs)).
Proof. apply sendToAny_loop_inv. Qed.

Lemma sendToAny_wf {Q R : Type} `{!Exchange Q R} (req : Q) (res : R) fuel s out s' :
  sendToAny req res fuel s = Some (out, s') → wf (bm s) → wf (bm s').
Proof.
  intros Hrun. apply sendToAny_inv in Hrun as (_ & _ & Hsub & _).
  by apply wf_subseteq.
Qed.

Lemma sendToAny_terminates {Q R : Type} `{!Exchange Q R} (req : Q) (res : R) s :
  wf (bm s) → terminates (sendToAny req res) s.
Proof.
  intros Hwf. destruct (sendToAny_loop_total req res s Hwf) as (out & s' & Hloop).
  exists out, s', (size (brokerManager.brokers (bm s)) + 2).
  intros fuel Hf. by apply Hloop.
Qed.

(** *** Error codes of a response *)

Lemma firstError_cons c cs :
  firstError (c :: cs) = if decide (c ≠ NO_ERROR) then Some c else firstError cs.
Proof. unfold firstError. rewrite filter_cons. by destruct (decide _). Qed.

Lemma firstError_app cs1 cs2 :
  firstError (cs1 ++ cs2) =
    match firstError cs1 with Some e => Some e | None => firstError cs2 end.
Proof. unfold firstError. by rewrite filter_app, head_app. Qed.

Lemma firstError_None cs : firstError cs = None ↔ Forall (λ c, c = NO_ERROR) cs.
Proof.
  induction cs as [|c cs IH]; [done|].
  rewrite firstError_cons, Forall_cons.
  destruct (decide (c ≠ NO_ERROR)) as [Hc|Hc]; [split; [done | tauto]|].
  apply dec_stable in Hc. tauto.
Qed.

Lemma firstError_Exists cs :
  Exists (λ c, c ≠ NO_ERROR) cs → is_Some (firstError cs).
Proof.
  intros Hex. destruct (firstError cs) eqn:E; [eauto|].
  apply firstError_None in E. apply Exists_exists in Hex as (c & Hin & Hc).
  rewrite Forall_forall in E. by apply E in Hin.
Qed.

Lemma errorCodes_cons t ts :
  errorCodes (t :: ts) =
    topicMetadata.err t :: (partitionMetadata.err <$> topicMetadata.partitions t)
      ++ errorCodes ts.
Proof. done. Qed.

Lemma partitionOk_codes ps :
  firstError (partitionMetadata.err <$> ps) = None ↔ Forall partitionOk ps.
Proof. rewrite firstError_None, Forall_fmap. done. Qed.

Lemma topicOk_codes ts : firstError (errorCodes ts) = None ↔ Forall topicOk ts.
Proof.
  induction ts as [|t ts IH]; [done|].
  rewrite errorCodes_cons, firstError_cons, firstError_app, Forall_cons.
  unfold topicOk at 1. rewrite <- partitionOk_codes, <- IH.
  destruct (decide (_ ≠ _)) as [Hc|Hc]; [split; [done | tauto]|].
  apply dec_stable in Hc.
  destruct (firstError (_ <$> _)); [split; [done | tauto] | tauto].
Qed.

(** *** The cache update *)

Lemma putBrokers_wf bs (m : gmap Z broker) :
  (∀ k v, m !! k = Some v → broker.id v = k) →
  ∀ k v, putBrokers bs m !! k = Some v → broker.id v = k.
Proof.
  revert m. induction bs as [|b bs IH]; intros m Hm; [done|].
  apply IH. intros k v. rewrite lookup_insert.
  case_decide; [congruence | apply Hm].
Qed.

Lemma putBrokers_is_Some bs (m : gmap Z broker) k :
  is_Some (putBrokers bs m !! k) ↔ is_Some (m !! k) ∨ k ∈ broker.id <$> bs.
Proof.
  revert m. induction bs as [|b bs IH]; intros m.
  - cbn. rewrite elem_of_nil. tauto.
  - cbn [putBrokers foldl]. fold (putBrokers bs (<[broker.id b := b]> m)).
    rewrite IH, fmap_cons, elem_of_cons, lookup_insert_is_Some. 
    destruct (decide (broker.id b = k)); intuition congruence.
Qed.

Lemma putPartitions_err name ps m :
  (putPartitions name ps m).2 = firstError (partitionMetadata.err <$> ps).
Proof.
  revert m. induction ps as [|p ps IH]; intros m; [done|].
  rewrite fmap_cons, firstError_cons. cbn [putPartitions].
  destruct (decide (_ ≠ _)); [done | apply IH].
Qed.

Lemma putPartitions_ok name ps inner m :
  Forall partitionOk ps →
  putPartitions name ps (<[name := inner]> m) =
    (<[name := foldl (λ m p, <[partitionMetadata.id p := p]> m) inner ps]> m, None).
Proof.
  revert inner. induction ps as [|p ps IH]; intros inner Hok; [done|].
  apply Forall_cons in Hok as [Hp Hok]. cbn [putPartitions foldl].
  destruct (decide (_ ≠ _)) as [Hc|_]; [done|].
  rewrite alter_insert_eq. by apply IH.
Qed.

Lemma putPartitions_stop name pre p post inner m :
  Forall partitionOk pre → ¬ partitionOk p →
  putPartitions name (pre ++ p :: post) (<[name := inner]> m) =
    (<[name := foldl (λ m p, <[partitionMetadata.id p := p]> m) inner pre]> m,
     Some (partitionMetadata.err p)).
Proof.
  revert inner. induction pre as [|q pre IH]; intros inner Hok Hp.
  - cbn [app putPartitions foldl]. by destruct (decide (_ ≠ _)).
  - apply Forall_cons in Hok as [Hq Hok]. cbn [app putPartitions foldl].
    destruct (decide (_ ≠ _)) as [Hc|_]; [done|].
    rewrite alter_insert_eq. by apply IH.
Qed.

Lemma putTopics_err ts m : (putTopics ts m).2 = firstError (errorCodes ts).
Proof.
  revert m. induction ts as [|t ts IH]; intros m; [done|].
  rewrite errorCodes_cons, firstError_cons, firstError_app. cbn [putTopics].
  destruct (decide (_ ≠ _)); [done|].
  rewrite <- putPartitions_err with (name := topicMetadata.name t)
    (m := <[topicMetadata.name t := ∅]> m).
  destruct (putPartitions _ _ _) as [m' [e|]]; [done | apply IH].
Qed.

Lemma putTopics_ok ts m : Forall topicOk ts → putTopics ts m = (replaced ts m, None).
Proof.
  revert m. induction ts as [|t ts IH]; intros m Hok; [done|].
  apply Forall_cons in Hok as [[Ht Hps] Hok]. cbn [putTopics replaced foldl].
  destruct (decide (_ ≠ _)) as [Hc|_]; [done|].
  rewrite putPartitions_ok by done. by apply IH.
Qed.

Lemma putTopics_stop_topic pre t post m :
  Forall topicOk pre → topicMetadata.err t ≠ NO_ERROR →
  putTopics (pre ++ t :: post) m = (replaced pre m, Some (topicMetadata.err t)).
Proof.
  revert m. induction pre as [|u pre IH]; intros m Hok Ht.
  - cbn [app putTopics]. by destruct (decide (_ ≠ _)).
  - apply Forall_cons in Hok as [[Hu Hps] Hok]. cbn [app putTopics replaced foldl].
    destruct (decide (_ ≠ _)) as [Hc|_]; [done|].
    rewrite putPartitions_ok by done. by apply IH.
Qed.

Lemma putTopics_stop_partition pre t post ppre p ppost m :
  Forall topicOk pre → topicMetadata.err t = NO_ERROR →
  topicMetadata.partitions t = ppre ++ p :: ppost →
  Forall partitionOk ppre → ¬ partitionOk p →
  putTopics (pre ++ t :: post) m =
    (<[topicMetadata.name t := partitionMap ppre]> (replaced pre m),
     Some (partitionMetadata.err p)).
Proof.
  revert m. induction pre as [|u pre IH]; intros m Hok Ht Hps Hppre Hp.
  - cbn [app putTopics replaced foldl].
    destruct (decide (_ ≠ _)) as [Hc|_]; [done|].
    by rewrite Hps, putPartitions_stop.
  - apply Forall_cons in Hok as [[Hu Hups] Hok]. cbn [app putTopics replaced foldl].
    destruct (decide (_ ≠ _)) as [Hc|_]; [done|].
    rewrite putPartitions_ok by done. by apply IH.
Qed.

(** A list with an element that fails [P] splits at the first such one. *)
Lemma first_failure {A} (P : A → Prop) `{!∀ x, Decision (P x)} (l : list A) :
  ¬ Forall P l → ∃ pre x post, l = pre ++ x :: post ∧ Forall P pre ∧ ¬ P x.
Proof.
  induction l as [|a l IH]; intros Hn; [by destruct Hn|].
  destruct (decide (P a)) as [Ha|Ha].
  - destruct IH as (pre & x & post & -> & Hpre & Hx).
    { intros Hl. apply Hn. by constructor. }
    exists (a :: pre), x, post. repeat split; [by constructor | done].
  - exists [], a, l. repeat split; [constructor | done].
Qed.

Lemma replaceFromMetadata_fst response (b : brokerManager) :
  (replaceFromMetadata response b).1 =
    setPartitions
      (putTopics (metadata.topics response) (brokerManager.partitions b)).1
      (setBrokers (putBrokers (metadata.brokers response) (brokerManager.brokers b)) b).
Proof.
  unfold replaceFromMetadata. cbn.
  by destruct (putTopics _ _) as [ps e].
Qed.

Lemma replaceFromMetadata_snd response (b : brokerManager) :
  (replaceFromMetadata response b).2 =
    ErrK <$> firstError (errorCodes (metadata.topics response)).
Proof.
  unfold replaceFromMetadata. cbn.
  rewrite <- putTopics_err with (m := brokerManager.partitions b).
  by destruct (putTopics _ _) as [ps e].
Qed.

Lemma replaceFromMetadata_wf response (b : brokerManager) :
  wf b → wf (replaceFromMetadata response b).1.
Proof.
  intros Hwf. rewrite replaceFromMetadata_fst. intros k v. cbn.
  apply (putBrokers_wf _ _ Hwf).
Qed.

Lemma replaceFromMetadata_client response (b : brokerManager) :
  brokerManager.client (replaceFromMetadata response b).1 = brokerManager.client b.
Proof. by rewrite replaceFromMetadata_fst. Qed.

(** *** [refreshTopics] *)

Lemma refreshTopics_run `{!Exchange metadataRequest metadata} topics fuel s :
  refreshTopics topics fuel s =
    match sendToAny (metadataRequest.mk topics) new_metadata fuel (refreshing topics s) with
    | Some ((_, Some e, _), s1) => Some (Some e, s1)
    | Some ((_, None, response), s1) =>
        Some ((replaceFromMetadata response (bm s1)).2,
              mkState (replaceFromMetadata response (bm s1)).1 (world s1) (trace s1))
    | None => None
    end.
Proof.
  unfold refreshTopics. rewrite bind_run. cbn [emit]. rewrite bind_run.
  fold (refreshing topics s).
  destruct (sendToAny _ _ _ _) as [[[[g [e|]] response] s1]|]; [done| |done].
  run. by destruct (replaceFromMetadata response (bm s1)).
Qed.

Lemma refreshTopics_inv `{!Exchange metadataRequest metadata} topics fuel s e s' :
  refreshTopics topics fuel s = Some (e, s') →
  brokerManager.client (bm s') = brokerManager.client (bm s) ∧
  (wf (bm s) → wf (bm s')) ∧
  ∃ bs, trace s' = trace s ++ Refreshed topics :: (Sent inSendToAny <$> bs).
Proof.
  rewrite refreshTopics_run.
  destruct (sendToAny _ _ _ _) as [[[[g err] response] s1]|] eqn:Hany; [|done].
  pose proof (sendToAny_wf _ _ _ _ _ _ Hany) as Hwf1.
  apply sendToAny_inv in Hany as (Hc & _ & _ & bs & Htr & _).
  cbn in Hc, Htr, Hwf1. rewrite <- (assoc_L (++)) in Htr.
  change ([Refreshed topics] ++ (Sent inSendToAny <$> bs))
    with (Refreshed topics :: (Sent inSendToAny <$> bs)) in Htr.
  destruct err as [e0|]; intros [= <- <-]; cbn.
  - eauto.
  - rewrite replaceFromMetadata_client. repeat split; [done | | eauto].
    intros Hwf. by apply replaceFromMetadata_wf, Hwf1.
Qed.

Lemma refreshTopics_terminates `{!Exchange metadataRequest metadata} topics s :
  wf (bm s) → terminates (refreshTopics topics) s.
Proof.
  intros Hwf.
  destruct (sendToAny_terminates (metadataRequest.mk topics) new_metadata
              (refreshing topics s) Hwf) as ([[g err] response] & s1 & n & Hn).
  destruct err as [e0|].
  - exists (Some e0), s1, n. intros fuel Hf. by rewrite refreshTopics_run, Hn.
  - eexists _, _. exists n. intros fuel Hf. by rewrite refreshTopics_run, Hn.
Qed.

(** *** [getValidLeader] *)

Lemma getValidLeader_inv `{!Exchange metadataRequest metadata} topic pid fuel s r s' :
  getValidLeader topic pid fuel s = Some (r, s') →
  brokerManager.client (bm s') = brokerManager.client (bm s) ∧
  (wf (bm s) → wf (bm s')) ∧
  ∃ evs, trace s' = trace s ++ evs ∧
         sendsFrom inSendToPartition evs = 0 ∧
         length (refreshes evs) ≤ 1.
Proof.
  unfold getValidLeader. intros Hrun.
  apply bind_inv in Hrun as (l & s0 & [= <- <-] & Hrun).
  match type of Hrun with context [match ?x with _ => _ end] =>
    destruct x as [b|] end.
  { injection Hrun as <- <-. repeat split; try done.
    exists []. rewrite app_nil_r. repeat split; cbn; lia. }
  apply bind_inv in Hrun as (err & s1 & Href & Hrun).
  apply refreshTopics_inv in Href as (Hc & Hwf & bs & Htr).
  assert (∃ evs, trace s1 = trace s ++ evs ∧
            sendsFrom inSendToPartition evs = 0 ∧ length (refreshes evs) ≤ 1) as Hevs.
  { eexists. split; [exact Htr|]. cbn.
    rewrite sendsFrom_Sent, refreshes_Sent by done. cbn. lia. }
  destruct err as [e|]; [by injection Hrun as <- <-|].
  apply bind_inv in Hrun as (l & s2 & [= <- <-] & Hrun).
  match type of Hrun with context [match ?x with _ => _ end] =>
    destruct x as [b|] end; by injection Hrun as <- <-.
Qed.

Lemma getValidLeader_terminates `{!Exchange metadataRequest metadata} topic pid s :
  wf (bm s) → terminates (getValidLeader topic pid) s.
Proof.
  intros Hwf. unfold getValidLeader.
  apply terminates_bind; [eexists _, _; by apply total_returns|].
  intros fuel l s0 [= <- <-].
  match goal with |- context [match ?x with _ => _ end] => destruct x as [b|] end;
    [apply terminates_ret|].
  apply terminates_bind; [by apply refreshTopics_terminates|].
  intros fuel' [e|] s1 Href; [apply terminates_ret|].
  apply terminates_bind; [eexists _, _; by apply total_returns|].
  intros fuel'' l s2 [= <- <-].
  match goal with |- context [match ?x with _ => _ end] => destruct x as [b|] end;
    apply terminates_ret.
Qed.

(** *** [sendToPartition] *)

Lemma sendToPartition_again_inv {Q R : Type}
    `{!Exchange metadataRequest metadata, !Exchange Q R}
    topic pid (req : Q) (res : R) fuel s g e res' s' :
  sendToPartition_again topic pid req res fuel s = Some ((g, e, res'), s') →
  (wf (bm s) → wf (bm s')) ∧
  ∃ evs, trace s' = trace s ++ evs ∧
         ((sendsFrom inSendToPartition evs = 0 ∧ g = false ∧ is_Some e) ∨
          sendsFrom inSendToPartition evs = 1).
Proof.
  unfold sendToPartition_again. intros Hrun.
  apply bind_inv in Hrun as (r & s1 & Hres & Hrun).
  apply getValidLeader_inv in Hres as (_ & Hwf1 & evs1 & Htr1 & Hs1 & _).
  destruct r as [b|e0].
  - apply exchange_inv in Hrun as (Hbm & Htr & _).
    rewrite Hbm. split; [done|].
    exists (evs1 ++ [Sent inSendToPartition b]).
    rewrite Htr, Htr1, (assoc_L (++)). split; [done|]. right.
    rewrite sendsFrom_app, Hs1. done.
  - injection Hrun as <- <- <- <-. split; [done|].
    exists evs1. split; [done|]. left. eauto.
Qed.

Lemma sendToPartition_again_terminates {Q R : Type}
    `{!Exchange metadataRequest metadata, !Exchange Q R}
    topic pid (req : Q) (res : R) s :
  wf (bm s) → terminates (sendToPartition_again topic pid req res) s.
Proof.
  intros Hwf. unfold sendToPartition_again.
  apply terminates_bind; [by apply getValidLeader_terminates|].
  intros fuel [b|e] s1 _; [|apply terminates_ret].
  destruct (exchange_total inSendToPartition b req res s1) as (out & s2 & Hx).
  exists out, s2. by apply total_returns.
Qed.

Lemma sendToPartition_inv {Q R : Type}
    `{!Exchange metadataRequest metadata, !Exchange Q R, !responseDecoder R}
    topic pid (req : Q) (res : R) fuel s g e res' s' :
  sendToPartition topic pid req res fuel s = Some ((g, e, res'), s') →
  (wf (bm s) → wf (bm s')) ∧
  ∃ evs, trace s' = trace s ++ evs ∧
         ((sendsFrom inSendToPartition evs = 0 ∧ g = false ∧ is_Some e) ∨
          (sendsFrom inSendToPartition evs = 1 ∧
           (g = false ∨ is_Some e ∨ staleTopics res' = [])) ∨
          sendsFrom inSendToPartition evs = 2).
Proof.
  unfold sendToPartition. intros Hrun.
  apply bind_inv in Hrun as (r & s1 & Hres & Hrun).
  apply getValidLeader_inv in Hres as (_ & Hwf1 & evs1 & Htr1 & Hs1 & _).
  destruct r as [b|e0].
  2:{ injection Hrun as <- <- <- <-. split; [done|].
      exists evs1. split; [done|]. left. eauto. }
  apply bind_inv in Hrun as ([[g1 e1] res1] & s2 & Hx & Hrun).
  apply exchange_inv in Hx as (Hbm2 & Htr2 & _).
  assert (Hwf2 : wf (bm s) → wf (bm s2)) by by rewrite Hbm2.
  assert (Hone : ∃ evs, trace s2 = trace s ++ evs ∧ sendsFrom inSendToPartition evs = 1).
  { exists (evs1 ++ [Sent inSendToPartition b]).
    rewrite Htr2, Htr1, (assoc_L (++)), sendsFrom_app, Hs1. done. }
  clear Htr1 Htr2 Hs1 Hwf1 Hbm2. destruct Hone as (evs2 & Htr2 & Hs2).
  assert (Hagain : ∀ s3 evs3,
    (wf (bm s) → wf (bm s3)) →
    trace s3 = trace s2 ++ evs3 → sendsFrom inSendToPartition evs3 = 0 →
    sendToPartition_again topic pid req res1 fuel s3 = Some ((g, e, res'), s') →
    (wf (bm s) → wf (bm s')) ∧
    ∃ evs, trace s' = trace s ++ evs ∧
         ((sendsFrom inSendToPartition evs = 0 ∧ g = false ∧ is_Some e) ∨
          (sendsFrom inSendToPartition evs = 1 ∧
           (g = false ∨ is_Some e ∨ staleTopics res' = [])) ∨
          sendsFrom inSendToPartition evs = 2)).
  { intros s3 evs3 Hwf3 Htr3 Hs3 Hag.
    apply sendToPartition_again_inv in Hag as (Hwf4 & evs4 & Htr4 & Hs4).
    split; [auto|].
    exists (evs2 ++ evs3 ++ evs4).
    rewrite Htr4, Htr3, Htr2, <- !(assoc_L (++)). split; [done|].
    rewrite !sendsFrom_app, Hs2, Hs3.
    destruct Hs4 as [(-> & -> & He) | ->]; [right; left | right; right]; auto. }
  assert (Hdiscard : ∀ s3,
    terminateBroker (broker.id b) fuel s2 = Some ((), s3) →
    sendToPartition_again topic pid req res1 fuel s3 = Some ((g, e, res'), s') →
    (wf (bm s) → wf (bm s')) ∧
    ∃ evs, trace s' = trace s ++ evs ∧
         ((sendsFrom inSendToPartition evs = 0 ∧ g = false ∧ is_Some e) ∨
          (sendsFrom inSendToPartition evs = 1 ∧
           (g = false ∨ is_Some e ∨ staleTopics res' = [])) ∨
          sendsFrom inSendToPartition evs = 2)).
  { intros s3 [= <-] Hag. eapply (Hagain _ []); [ | | done | exact Hag].
    - intros Hwf k v Hk. cbn in Hk.
      apply lookup_delete_Some in Hk as [_ Hk]. by apply (Hwf2 Hwf).
    - cbn. by rewrite app_nil_r. }
  destruct e1 as [[msg|code| |msg]|].
  - injection Hrun as <- <- <- <-. split; [done|].
    exists evs2. split; [done|]. right; left. auto.
  - apply bind_inv in Hrun as ([] & s3 & Hdel & Hrun). eauto.
  - apply bind_inv in Hrun as ([] & s3 & Hdel & Hrun). eauto.
  - apply bind_inv in Hrun as ([] & s3 & Hdel & Hrun). eauto.
  - destruct g1.
    2:{ injection Hrun as <- <- <- <-. split; [done|].
        exists evs2. split; [done|]. right; left. auto. }
    cbv zeta in Hrun. destruct (decide (length (staleTopics res1) = 0)) as [Hlen|Hlen].
    { injection Hrun as <- <- <- <-. split; [done|].
      exists evs2. split; [done|]. right; left.
      split; [done|]. right; right. by apply nil_length_inv. }
    apply bind_inv in Hrun as (err & s3 & Href & Hrun).
    apply refreshTopics_inv in Href as (_ & Hwf3 & bs & Htr3).
    destruct err as [e3|].
    { injection Hrun as <- <- <- <-. split; [auto|].
      exists (evs2 ++ Refreshed (staleTopics res1) :: (Sent inSendToAny <$> bs)).
      rewrite Htr3, Htr2, <- (assoc_L (++)). split; [done|]. right; left.
      rewrite sendsFrom_app, Hs2. cbn [sendsFrom].
      rewrite sendsFrom_Sent by done. eauto. }
    eapply Hagain; [auto | exact Htr3 | | exact Hrun].
    cbn [sendsFrom]. by rewrite sendsFrom_Sent.
Qed.

Lemma sendToPartition_terminates {Q R : Type}
    `{!Exchange metadataRequest metadata, !Exchange Q R, !responseDecoder R}
    topic pid (req : Q) (res : R) s :
  wf (bm s) → terminates (sendToPartition topic pid req res) s.
Proof.
  intros Hwf. unfold sendToPartition.
  apply terminates_bind; [by apply getValidLeader_terminates|].
  intros fuel [b|e] s1 Hres; [|apply terminates_ret].
  apply getValidLeader_inv in Hres as (_ & Hwf1 & _). specialize (Hwf1 Hwf).
  destruct (exchange_total inSendToPartition b req res s1) as (out & s2 & Hx).
  apply terminates_bind; [exists out, s2; by apply total_returns|].
  intros fuel' [[g1 e1] res1] s2' Hx'.
  apply exchange_inv in Hx' as (Hbm2 & _ & _).
  assert (Hwf2 : wf (bm s2')) by by rewrite Hbm2.
  assert (Hdel : terminates
    (terminateBroker (broker.id b) ≫= λ _, sendToPartition_again topic pid req res1) s2').
  { apply terminates_bind; [eexists _, _; by apply total_returns|].
    intros fuel'' [] s3 [= <-]. apply sendToPartition_again_terminates.
    intros k v Hk. cbn in Hk. apply lookup_delete_Some in Hk as [_ Hk]. by apply Hwf2. }
  destruct e1 as [[msg|code| |msg]|]; try exact Hdel; try apply terminates_ret.
  destruct g1; [|apply terminates_ret]. cbv zeta.
  destruct (decide _); [apply terminates_ret|].
  apply terminates_bind; [by apply refreshTopics_terminates|].
  intros fuel'' [e3|] s3 Href; [apply terminates_ret|].
  apply sendToPartition_again_terminates.
  apply refreshTopics_inv in Href as (_ & Hwf3 & _). auto.
Qed.

(** *** The manager stays well-formed

    [newBrokerManager] builds a well-formed manager and every method keeps
    it so ([sendToAny_wf], [refreshTopics_inv], [getValidLeader_inv] and
    the three lemmas below): the hypothesis [wf] of the claims holds of
    every manager the code can reach. *)

Lemma newBrokerManager_wf `{!Exchange metadataRequest metadata}
    client host port fuel w b w' :
  newBrokerManager client host port fuel w = Some (Ok b, w') → wf b.
Proof.
  unfold newBrokerManager. destruct (newBroker host port w) as [[d|e] w1]; [|done].
  destruct (refreshTopics _ _ _) as [[[e|] s]|] eqn:Href; [done | | done].
  intros [= <- <-]. apply refreshTopics_inv in Href as (_ & Hwf & _).
  apply Hwf. cbn. apply map_Forall_empty.
Qed.

Lemma sendToPartition_wf {Q R : Type}
    `{!Exchange metadataRequest metadata, !Exchange Q R, !responseDecoder R}
    topic pid (req : Q) (res : R) fuel s out s' :
  sendToPartition topic pid req res fuel s = Some (out, s') → wf (bm s) → wf (bm s').
Proof.
  destruct out as [[g e] res']. intros Hrun.
  by apply sendToPartition_inv in Hrun as [Hwf _].
Qed.

Lemma partitionsForTopic_wf `{!Exchange metadataRequest metadata} topic fuel s r s' :
  partitionsForTopic topic fuel s = Some (r, s') → wf (bm s) → wf (bm s').
Proof.
  unfold partitionsForTopic. intros Hrun Hwf.
  apply bind_inv in Hrun as (b & s0 & [= <- <-] & Hrun).
  destruct (brokerManager.partitions (bm s) !! topic) as [id_map|].
  { apply bind_inv in Hrun as (ids & s1 & Hids & [= <- <-]).
    apply rangeKeys_inv in Hids as (_ & -> & _). done. }
  apply bind_inv in Hrun as (err & s1 & Href & Hrun).
  apply refreshTopics_inv in Href as (_ & Hwf1 & _). specialize (Hwf1 Hwf).
  destruct err as [e|]; [by injection Hrun as <- <-|].
  apply bind_inv in Hrun as (b & s2 & [= <- <-] & Hrun).
  destruct (brokerManager.partitions (bm s1) !! topic) as [id_map|];
    [|by injection Hrun as <- <-].
  apply bind_inv in Hrun as (ids & s2 & Hids & [= <- <-]).
  apply rangeKeys_inv in Hids as (_ & -> & _). done.
Qed.

Lemma terminateBroker_wf id fuel s s' :
  terminateBroker id fuel s = Some ((), s') → wf (bm s) → wf (bm s').
Proof.
  intros [= <-] Hwf k v Hk. cbn in Hk.
  apply lookup_delete_Some in Hk as [_ Hk]. by apply Hwf.
Qed.

Lemma sendToAny_loop_all_fail {Q R : Type} `{!Exchange Q R} n (req : Q) :
  ∀ (res : R) fuel s out s',
    (∀ b, known (bm s) b → ∀ cid r w,
       isBrokerError (sendAndReceive b cid req r w).1.1.2 = true) →
    sendToAny_loop n req res fuel s = Some (out, s') →
    ∃ res', out = (false, Some OutOfBrokers, res').
Proof.
  induction n as [|n IH]; intros res fuel s out s' Hfail Hrun; [done|].
  destruct (getDefault fuel s) as [[d s1]|] eqn:Hd;
    [| by cbn [sendToAny_loop] in Hrun; rewrite bind_run, Hd in Hrun].
  rewrite (sendToAny_loop_step _ _ _ _ _ _ _ Hd) in Hrun.
  apply getDefault_inv in Hd as (_ & Hbm1 & Hd).
  destruct d as [b|]; [|injection Hrun as <- <-; eauto].
  destruct (exchange _ _ _ _ _ _) as [[[[g e] r] s2]|] eqn:Hx; [|done].
  apply exchange_inv in Hx as (Hbm2 & _ & Hsar).
  assert (Hkb : known (bm s) b).
  { destruct Hd as [Hd | [_ Hk]]; [by left | by right]. }
  pose proof (Hfail b Hkb (Client.id (brokerManager.client (bm s1))) res (world s1)) as He.
  rewrite Hsar in He. cbn in He. rewrite He in Hrun.
  eapply IH; [|exact Hrun].
  intros b' [Hb' | [k Hk]]; [done|]. cbn in Hk. rewrite Hbm2, Hbm1 in Hk. cbn in Hk.
  apply lookup_delete_Some in Hk as [_ Hk]. apply Hfail. right. eauto.
Qed.

(** *** Maps filled from a list *)

Section fold_insert.
Context `{Countable K} {A V : Type} (key : A → K) (val : A → V).

Lemma foldl_insert_lookup_Some l (m : gmap K V) k v :
  foldl (λ m x, <[key x := val x]> m) m l !! k = Some v →
  (∃ x, x ∈ l ∧ key x = k ∧ val x = v) ∨ m !! k = Some v.
Proof.
  revert m. induction l as [|a l IH]; intros m Hl; [by right|].
  apply IH in Hl as [(x & Hin & Hk & Hv) | Hl].
  - left. exists x. split; [by right | done].
  - rewrite lookup_insert in Hl. case_decide; [|by right].
    left. exists a. split; [by left | split; congruence].
Qed.

Lemma foldl_insert_lookup_notin l (m : gmap K V) k :
  k ∉ key <$> l → foldl (λ m x, <[key x := val x]> m) m l !! k = m !! k.
Proof.
  revert m. induction l as [|a l IH]; intros m Hk; [done|].
  rewrite fmap_cons, not_elem_of_cons in Hk. destruct Hk as [Hne Hk].
  cbn [foldl]. rewrite IH by done. by rewrite lookup_insert_ne.
Qed.

Lemma foldl_insert_lookup_last pre x post (m : gmap K V) :
  key x ∉ key <$> post →
  foldl (λ m x, <[key x := val x]> m) m (pre ++ x :: post) !! key x = Some (val x).
Proof.
  intros Hpost. rewrite foldl_app. cbn [foldl].
  rewrite foldl_insert_lookup_notin by done. apply lookup_insert_eq.
Qed.

Lemma foldl_insert_lookup_elem l (m : gmap K V) x :
  x ∈ l →
  ∃ x', x' ∈ l ∧ key x' = key x ∧
        foldl (λ m x, <[key x := val x]> m) m l !! key x = Some (val x').
Proof.
  revert m x. induction l as [|a l IH]; intros m x Hin; [by apply elem_of_nil in Hin|].
  destruct (decide (key x ∈ key <$> l)) as [Hk|Hk].
  - apply list_elem_of_fmap in Hk as (y & Hky & Hy).
    destruct (IH (<[key a := val a]> m) y Hy) as (x' & Hx' & Hk' & Hlook).
    exists x'. split; [by right|]. rewrite Hky. split; [congruence | done].
  - apply elem_of_cons in Hin as [-> | Hin].
    + exists a. split; [by left|]. split; [done|].
      cbn [foldl]. rewrite foldl_insert_lookup_notin by done. apply lookup_insert_eq.
    + destruct Hk. apply list_elem_of_fmap. eauto.
Qed.

End fold_insert.

Lemma partitionMap_lookup ps pid p :
  partitionMap ps !! pid = Some p → p ∈ ps ∧ partitionMetadata.id p = pid.
Proof.
  intros Hl.
  apply (foldl_insert_lookup_Some partitionMetadata.id (λ p, p)) in Hl
    as [(x & Hin & Hk & ->) | Hl]; [done|].
  by rewrite lookup_empty in Hl.
Qed.

Lemma partitionMap_lookup_notin ps pid :
  pid ∉ partitionMetadata.id <$> ps → partitionMap ps !! pid = None.
Proof.
  intros Hn. unfold partitionMap.
  rewrite (foldl_insert_lookup_notin partitionMetadata.id (λ p, p)) by done.
  apply lookup_empty.
Qed.

Lemma refreshTopics_applied `{!Exchange metadataRequest metadata}
    topics fuel s g response s1 :
  sendToAny (metadataRequest.mk topics) new_metadata fuel (refreshing topics s)
    = Some ((g, None, response), s1) →
  refreshTopics topics fuel s =
    Some ((replaceFromMetadata response (bm s1)).2,
          mkState (replaceFromMetadata response (bm s1)).1 (world s1) (trace s1)).
Proof. intros Hany. by rewrite refreshTopics_run, Hany. Qed.

(** ** The claims *)

(** C1 (amended).  When [sendToPartition] returns [(true, nil)] and the
    call has sent the request once, the response object holds a response
    whose [staleTopics()] is empty.  (The result of a second send is
    returned as it is, stale topics or not.) *)
Theorem sendToPartition_first_attempt_not_stale {Q R : Type}
    `{!Exchange metadataRequest metadata, !Exchange Q R, !responseDecoder R}
    topic pid (req : Q) (res : R) fuel s res' s' :
  sendToPartition topic pid req res fuel s = Some ((true, None, res'), s') →
  sendsFrom inSendToPartition (trace s') = sendsFrom inSendToPartition (trace s) + 1 →
  staleTopics res' = [].
Proof.
  intros Hrun Hone.
  apply sendToPartition_inv in Hrun as (_ & evs & Htr & Hcases).
  rewrite Htr, sendsFrom_app in Hone.
  destruct Hcases as [(_ & Hg & _) | [(_ & [Hg | [He | Hst]]) | Htwo]];
    [done | done | by destruct He | done | lia].
Qed.

(** C2 (amended).  [sendToPartition] sends the caller's request at most
    twice per call (the metadata requests of the refreshes it triggers are
    sent besides, through [sendToAny]); and from a well-formed manager the
    call returns. *)
Theorem sendToPartition_sends_request_at_most_twice {Q R : Type}
    `{!Exchange metadataRequest metadata, !Exchange Q R, !responseDecoder R}
    topic pid (req : Q) (res : R) s :
  (wf (bm s) → terminates (sendToPartition topic pid req res) s) ∧
  (∀ fuel out s',
     sendToPartition topic pid req res fuel s = Some (out, s') →
     ∃ evs, trace s' = trace s ++ evs ∧ sendsFrom inSendToPartition evs ≤ 2).
Proof.
  split; [apply sendToPartition_terminates|].
  intros fuel [[g e] res'] s' Hrun.
  apply sendToPartition_inv in Hrun as (_ & evs & Htr & Hcases).
  exists evs. split; [done|].
  destruct Hcases as [(-> & _) | [(-> & _) | ->]]; lia.
Qed.

(** C3.  From a well-formed manager, if [sendAndReceive] fails with an
    error other than an encoding error on every known broker, [sendToAny]
    returns [(false, OutOfBrokers)], and the brokers it has contacted are
    known brokers with pairwise different ids: none was contacted twice. *)
Theorem sendToAny_out_of_brokers {Q R : Type} `{!Exchange Q R} (req : Q) (res : R) s :
  wf (bm s) →
  (∀ b, known (bm s) b → ∀ cid r w,
     isBrokerError (sendAndReceive b cid req r w).1.1.2 = true) →
  ∃ res' s' bs,
    returns (sendToAny req res) s (false, Some OutOfBrokers, res') s' ∧
    trace s' = trace s ++ (Sent inSendToAny <$> bs) ∧
    Forall (known (bm s)) bs ∧
    NoDup (broker.id <$> bs).
Proof.
  intros Hwf Hfail.
  destruct (sendToAny_loop_total req res s Hwf) as (out & s' & Hloop).
  pose proof (Hloop _ 0 (Nat.le_refl _)) as Hrun.
  destruct (sendToAny_loop_all_fail _ _ _ _ _ _ _ Hfail Hrun) as [res' ->].
  apply sendToAny_loop_inv in Hrun as (_ & _ & _ & bs & Htr & Hkn & Hnd).
  exists res', s', bs. repeat split; [|done|done|by apply Hnd].
  exists (size (brokerManager.brokers (bm s)) + 2). intros fuel Hf. by apply Hloop.
Qed.

(** C6.  When the first [sendAndReceive] of [sendToPartition] returns an
    encoding error, [sendToPartition] returns [(false, that error)]; the
    trace ends with this one send, and the manager is the one the leader
    resolution left: no broker was terminated, no map was touched. *)
Theorem sendToPartition_encoding_error {Q R : Type}
    `{!Exchange metadataRequest metadata, !Exchange Q R, !responseDecoder R}
    topic pid (req : Q) (res : R) fuel s b s1 g msg res1 w1 :
  getValidLeader topic pid fuel s = Some (Ok b, s1) →
  sendAndReceive b (Client.id (brokerManager.client (bm s1))) req res (world s1)
    = ((g, Some (EncodingError msg), res1), w1) →
  ∃ s', sendToPartition topic pid req res fuel s
          = Some ((false, Some (EncodingError msg), res1), s') ∧
        trace s' = trace s1 ++ [Sent inSendToPartition b] ∧
        bm s' = bm s1 ∧
        brokerManager.brokers (bm s') = brokerManager.brokers (bm s1) ∧
        brokerManager.partitions (bm s') = brokerManager.partitions (bm s1).
Proof.
  intros Hres Hsar. eexists. split.
  - unfold sendToPartition. rewrite bind_run, Hres. cbn beta iota.
    rewrite bind_run. unfold exchange. rewrite Hsar. reflexivity.
  - done.
Qed.

(** C7.  [getLeader] returns without changing the state (no refresh, no
    send, no fuel needed); it returns none exactly when the topic is
    absent, or the partition is absent from the topic's map, or the
    record's leader is not a key of [brokers]; otherwise it returns the
    broker stored under the leader's id. *)
Theorem getLeader_pure_lookup topic pid fuel s :
  ∃ r, getLeader topic pid fuel s = Some (r, s) ∧
    (r = None ↔
       brokerManager.partitions (bm s) !! topic = None ∨
       (∃ id_map, brokerManager.partitions (bm s) !! topic = Some id_map ∧
                  id_map !! pid = None) ∨
       (∃ id_map p, brokerManager.partitions (bm s) !! topic = Some id_map ∧
                    id_map !! pid = Some p ∧
                    brokerManager.brokers (bm s) !! partitionMetadata.leader p = None)) ∧
    (∀ id_map p,
       brokerManager.partitions (bm s) !! topic = Some id_map →
       id_map !! pid = Some p →
       r = brokerManager.brokers (bm s) !! partitionMetadata.leader p).
Proof.
  eexists. split; [reflexivity|].
  destruct (brokerManager.partitions (bm s) !! topic) as [id_map|] eqn:Et.
  2:{ split; [split; [auto | done] | done]. }
  destruct (id_map !! pid) as [p|] eqn:Ep.
  2:{ split; [split; [eauto | done] | intros m q [= <-]; congruence]. }
  split.
  - split.
    + intros Hl. right; right. eauto.
    + intros [? | [(m & [= <-] & ?) | (m & q & [= <-] & ? & ?)]]; congruence.
  - intros m q [= <-] Hq. rewrite Ep in Hq. by injection Hq as <-.
Qed.

(** C9.  When the first send of [sendToPartition] gets a response that
    reports stale topics and the refresh of these topics fails,
    [sendToPartition] returns [(true, that error)], having sent the request
    once. *)
Theorem sendToPartition_refresh_failure {Q R : Type}
    `{!Exchange metadataRequest metadata, !Exchange Q R, !responseDecoder R}
    topic pid (req : Q) (res : R) fuel s b s1 res1 w1 e s2 :
  getValidLeader topic pid fuel s = Some (Ok b, s1) →
  sendAndReceive b (Client.id (brokerManager.client (bm s1))) req res (world s1)
    = ((true, None, res1), w1) →
  staleTopics res1 ≠ [] →
  refreshTopics (staleTopics res1) fuel
    (mkState (bm s1) w1 (trace s1 ++ [Sent inSendToPartition b])) = Some (Some e, s2) →
  sendToPartition topic pid req res fuel s = Some ((true, Some e, res1), s2) ∧
  ∃ evs, trace s2 = trace s ++ evs ∧ sendsFrom inSendToPartition evs = 1.
Proof.
  intros Hres Hsar Hstale Href.
  assert (Hrun : sendToPartition topic pid req res fuel s = Some ((true, Some e, res1), s2)).
  { unfold sendToPartition. rewrite bind_run, Hres. cbn beta iota.
    rewrite bind_run. unfold exchange at 1. rewrite Hsar. cbn beta iota zeta.
    destruct (decide (length (staleTopics res1) = 0)) as [Hlen|_].
    { by apply nil_length_inv in Hlen. }
    by rewrite bind_run, Href. }
  split; [done|].
  apply getValidLeader_inv in Hres as (_ & _ & evs1 & Htr1 & Hs1 & _).
  apply refreshTopics_inv in Href as (_ & _ & bs & Htr2). cbn in Htr2.
  eexists. rewrite Htr2, Htr1, <- !(assoc_L (++)). split; [done|].
  rewrite !sendsFrom_app, Hs1. cbn [sendsFrom].
  by rewrite sendsFrom_Sent.
Qed.


(** C4.  When the decoded metadata response carries an error code other
    than [NO_ERROR], [refreshTopics] returns the first such code in
    response order (a topic's code, then its partitions' codes, topic after
    topic), and nothing applied before it is undone: all the brokers of the
    response are upserted, and the topics [pre] before the failing topic [t]
    have their inner maps replaced.  (When the code is a partition's, the
    map of [t] itself holds the records before the failing one.) *)
Theorem refreshTopics_first_error `{!Exchange metadataRequest metadata}
    topics fuel s g response s1 :
  sendToAny (metadataRequest.mk topics) new_metadata fuel (refreshing topics s)
    = Some ((g, None, response), s1) →
  Exists (λ c, c ≠ NO_ERROR) (errorCodes (metadata.topics response)) →
  ∃ e s2 pre t post,
    refreshTopics topics fuel s = Some (Some (ErrK e), s2) ∧
    firstError (errorCodes (metadata.topics response)) = Some e ∧
    metadata.topics response = pre ++ t :: post ∧ Forall topicOk pre ∧
    brokerManager.brokers (bm s2) =
      putBrokers (metadata.brokers response) (brokerManager.brokers (bm s1)) ∧
    ((topicMetadata.err t = e ∧ e ≠ NO_ERROR ∧
      brokerManager.partitions (bm s2) = replaced pre (brokerManager.partitions (bm s1))) ∨
     (topicMetadata.err t = NO_ERROR ∧
      ∃ ppre p ppost,
        topicMetadata.partitions t = ppre ++ p :: ppost ∧ Forall partitionOk ppre ∧
        partitionMetadata.err p = e ∧ e ≠ NO_ERROR ∧
        brokerManager.partitions (bm s2) =
          <[topicMetadata.name t := partitionMap ppre]>
            (replaced pre (brokerManager.partitions (bm s1))))).
Proof.
  intros Hany Hex. rewrite (refreshTopics_applied _ _ _ _ _ _ Hany).
  rewrite replaceFromMetadata_snd, replaceFromMetadata_fst.
  assert (Hnok : ¬ Forall topicOk (metadata.topics response)).
  { intros Hok. apply topicOk_codes in Hok.
    apply firstError_Exists in Hex as [e He]. congruence. }
  destruct (first_failure topicOk _ Hnok) as (pre & t & post & Hts & Hpre & Ht).
  pose proof (putTopics_err (metadata.topics response)
                (brokerManager.partitions (bm s1))) as Herr.
  destruct (decide (topicMetadata.err t = NO_ERROR)) as [Hterr|Hterr].
  - assert (Hps : ¬ Forall partitionOk (topicMetadata.partitions t)).
    { intros Hps. by apply Ht. }
    destruct (first_failure partitionOk _ Hps) as (ppre & p & ppost & Hpps & Hppre & Hp).
    assert (Hput : putTopics (metadata.topics response) (brokerManager.partitions (bm s1))
      = (<[topicMetadata.name t := partitionMap ppre]>
           (replaced pre (brokerManager.partitions (bm s1))),
         Some (partitionMetadata.err p))).
    { rewrite Hts. by eapply putTopics_stop_partition. }
    rewrite Hput in Herr |- *. cbn in Herr. rewrite <- Herr.
    eexists _, _, pre, t, post.
    split; [reflexivity|]. split; [done|]. split; [done|]. split; [done|].
    split; [done|].
    right. split; [done|]. exists ppre, p, ppost. repeat split; done.
  - assert (Hput : putTopics (metadata.topics response) (brokerManager.partitions (bm s1))
      = (replaced pre (brokerManager.partitions (bm s1)), Some (topicMetadata.err t))).
    { rewrite Hts. by apply putTopics_stop_topic. }
    rewrite Hput in Herr |- *. cbn in Herr. rewrite <- Herr.
    eexists _, _, pre, t, post.
    split; [reflexivity|]. split; [done|]. split; [done|]. split; [done|].
    split; [done|].
    left. repeat split; done.
Qed.

(** C5 (amended).  After a [refreshTopics] that returns nil, the leader of
    every partition record found under a topic of the response is a key of
    [brokers], provided the response lists a broker for every leader id its
    partition records name. *)
Theorem refreshTopics_leaders_known `{!Exchange metadataRequest metadata}
    topics fuel s g err response s1 s' :
  sendToAny (metadataRequest.mk topics) new_metadata fuel (refreshing topics s)
    = Some ((g, err, response), s1) →
  refreshTopics topics fuel s = Some (None, s') →
  (∀ t p, t ∈ metadata.topics response → p ∈ topicMetadata.partitions t →
          partitionMetadata.leader p ∈ broker.id <$> metadata.brokers response) →
  ∀ t id_map pid p,
    t ∈ metadata.topics response →
    brokerManager.partitions (bm s') !! topicMetadata.name t = Some id_map →
    id_map !! pid = Some p →
    is_Some (brokerManager.brokers (bm s') !! partitionMetadata.leader p).
Proof.
  intros Hany Hrun Hlisted t id_map pid p Ht Hmap Hp.
  rewrite refreshTopics_run, Hany in Hrun.
  destruct err as [e|]; [done|]. injection Hrun as Herr <-.
  rewrite replaceFromMetadata_snd in Herr. apply fmap_None, topicOk_codes in Herr.
  rewrite replaceFromMetadata_fst in Hmap |- *. cbn in Hmap |- *.
  rewrite putTopics_ok in Hmap by done. cbn in Hmap.
  destruct (foldl_insert_lookup_elem topicMetadata.name
              (λ t, partitionMap (topicMetadata.partitions t))
              (metadata.topics response) (brokerManager.partitions (bm s1)) t Ht)
    as (t' & Ht' & _ & Hlook).
  unfold replaced in Hmap. rewrite Hlook in Hmap. injection Hmap as <-.
  apply partitionMap_lookup in Hp as [Hp _].
  apply putBrokers_is_Some. right. by eapply Hlisted.
Qed.

(** C8.  For a topic absent from the cache (and a well-formed manager),
    [partitionsForTopic] returns after exactly one refresh, of that topic:
    with the refresh's error if it failed, with
    [UNKNOWN_TOPIC_OR_PARTITION] if the topic is still absent from the
    refreshed cache, and otherwise with the partition ids found there, in
    some order. *)
Theorem partitionsForTopic_unknown_topic `{!Exchange metadataRequest metadata} topic s :
  wf (bm s) →
  brokerManager.partitions (bm s) !! topic = None →
  ∃ r s' err s1 evs,
    returns (partitionsForTopic topic) s r s' ∧
    returns (refreshTopic topic) s err s1 ∧
    trace s' = trace s ++ evs ∧ refreshes evs = [[topic]] ∧
    bm s' = bm s1 ∧
    match err with
    | Some e => r = Err e
    | None =>
        match brokerManager.partitions (bm s1) !! topic with
        | None => r = Err (ErrK UNKNOWN_TOPIC_OR_PARTITION)
        | Some id_map => ∃ ids, r = Ok ids ∧ ids ≡ₚ keys id_map
        end
    end.
Proof.
  intros Hwf Hnone.
  destruct (refreshTopics_terminates [topic] s Hwf) as (err & s1 & n & Hn).
  destruct (refreshTopics_inv _ _ _ _ _ (Hn n (Nat.le_refl n))) as (_ & _ & bs & Htr).
  assert (Hstart : ∀ fuel, n ≤ fuel →
    partitionsForTopic topic fuel s =
      match err with
      | Some e => Some (Err e, s1)
      | None =>
          match brokerManager.partitions (bm s1) !! topic with
          | None => Some (Err (ErrK UNKNOWN_TOPIC_OR_PARTITION), s1)
          | Some id_map => (ids ← rangeKeys id_map; mret (Ok ids)) fuel s1
          end
      end).
  { intros fuel Hf. unfold partitionsForTopic. rewrite bind_run. cbn [getBM].
    rewrite Hnone, bind_run. unfold refreshTopic. rewrite (Hn fuel Hf).
    destruct err as [e|]; [done|]. rewrite bind_run. cbn [getBM].
    by destruct (brokerManager.partitions (bm s1) !! topic). }
  assert (Hrefs : refreshes (Refreshed [topic] :: (Sent inSendToAny <$> bs)) = [[topic]]).
  { cbn. by rewrite refreshes_Sent. }
  destruct err as [e|].
  { exists (Err e), s1, (Some e), s1. eexists. repeat split; [| |exact Htr|exact Hrefs].
    - exists n. intros fuel Hf. by rewrite Hstart.
    - exists n. exact Hn. }
  destruct (brokerManager.partitions (bm s1) !! topic) as [id_map|] eqn:Emap.
  2:{ eexists _, s1, None, s1. eexists. repeat split; [| |exact Htr|exact Hrefs|].
      - exists n. intros fuel Hf. by rewrite Hstart.
      - exists n. exact Hn.
      - by rewrite Emap. }
  destruct (rangeKeys_total id_map s1) as (ids & s' & Hids).
  destruct (rangeKeys_inv _ _ _ _ _ (Hids 0)) as (Hperm & Hbm & Htr').
  exists (Ok ids), s', None, s1. eexists. repeat split.
  - exists n. intros fuel Hf. by rewrite Hstart, bind_run, Hids.
  - exists n. exact Hn.
  - rewrite Htr'. exact Htr.
  - exact Hrefs.
  - done.
  - rewrite Emap. eauto.
Qed.

(** C10.  When the first error code of the response is the one of a
    partition record [p] of topic [t], [refreshTopics] returns it and
    leaves under [t]'s name a map made only of the records before [p]: any
    other partition id is absent from it, whatever the cache held for the
    topic before.  A later refresh that succeeds and describes the topic
    puts the whole partition list back. *)
Theorem refreshTopics_partition_error `{!Exchange metadataRequest metadata}
    topics fuel s g response s1 pre t post ppre p ppost :
  sendToAny (metadataRequest.mk topics) new_metadata fuel (refreshing topics s)
    = Some ((g, None, response), s1) →
  metadata.topics response = pre ++ t :: post → Forall topicOk pre →
  topicMetadata.err t = NO_ERROR →
  topicMetadata.partitions t = ppre ++ p :: ppost → Forall partitionOk ppre →
  partitionMetadata.err p ≠ NO_ERROR →
  ∃ s2,
    refreshTopics topics fuel s = Some (Some (ErrK (partitionMetadata.err p)), s2) ∧
    brokerManager.partitions (bm s2) !! topicMetadata.name t = Some (partitionMap ppre) ∧
    (∀ pid, pid ∉ partitionMetadata.id <$> ppre →
       brokerManager.partitions (bm s2) !! topicMetadata.name t ≫= (.!! pid) = None) ∧
    (∀ topics' fuel' s3 g' response' s4 pre' t' post',
       sendToAny (metadataRequest.mk topics') new_metadata fuel' (refreshing topics' s3)
         = Some ((g', None, response'), s4) →
       Forall topicOk (metadata.topics response') →
       metadata.topics response' = pre' ++ t' :: post' →
       topicMetadata.name t' = topicMetadata.name t →
       topicMetadata.name t ∉ topicMetadata.name <$> post' →
       ∃ s5, refreshTopics topics' fuel' s3 = Some (None, s5) ∧
             brokerManager.partitions (bm s5) !! topicMetadata.name t
               = Some (partitionMap (topicMetadata.partitions t'))).
Proof.
  intros Hany Hts Hpre Hterr Hps Hppre Hp.
  rewrite (refreshTopics_applied _ _ _ _ _ _ Hany).
  rewrite replaceFromMetadata_snd, replaceFromMetadata_fst.
  pose proof (putTopics_err (metadata.topics response)
                (brokerManager.partitions (bm s1))) as Herr.
  rewrite <- Herr. rewrite Hts.
  rewrite (putTopics_stop_partition _ _ _ _ _ _ _ Hpre Hterr Hps Hppre Hp).
  eexists. split; [reflexivity|]. cbn.
  split; [apply lookup_insert_eq|]. split.
  { intros pid Hpid. rewrite lookup_insert_eq. cbn. by apply partitionMap_lookup_notin. }
  intros topics' fuel' s3 g' response' s4 pre' t' post' Hany' Hok Hts' Hname Hpost.
  rewrite (refreshTopics_applied _ _ _ _ _ _ Hany').
  rewrite replaceFromMetadata_snd, replaceFromMetadata_fst.
  rewrite (proj2 (topicOk_codes _) Hok), putTopics_ok by done.
  eexists. split; [reflexivity|]. cbn. rewrite Hts', <- Hname.
  apply (foldl_insert_lookup_last topicMetadata.name
           (λ t, partitionMap (topicMetadata.partitions t))).
  by rewrite Hname.
Qed.


(** ** Further properties of the manager *)

(** *** [terminateBroker] and [getDefault] *)

(** X1.  [terminateBroker] removes the id from [brokers] and nothing else:
    the other brokers, the partition records, the default slot and the trace
    stay; [getLeader] then finds no leader for the partitions led by that
    id; and terminating the same id again changes nothing. *)
Theorem terminateBroker_removes_only_the_id id fuel s :
  ∃ s1,
    terminateBroker id fuel s = Some ((), s1) ∧
    terminateBroker id fuel s1 = Some ((), s1) ∧
    brokerManager.brokers (bm s1) !! id = None ∧
    (∀ k, k ≠ id → brokerManager.brokers (bm s1) !! k = brokerManager.brokers (bm s) !! k) ∧
    brokerManager.partitions (bm s1) = brokerManager.partitions (bm s) ∧
    brokerManager.defaultBroker (bm s1) = brokerManager.defaultBroker (bm s) ∧
    trace s1 = trace s ∧ world s1 = world s ∧
    (∀ topic pid id_map p,
       brokerManager.partitions (bm s) !! topic = Some id_map →
       id_map !! pid = Some p → partitionMetadata.leader p = id →
       getLeader topic pid fuel s1 = Some (None, s1)).
Proof.
  eexists. split; [reflexivity|]. cbn. split.
  { unfold terminateBroker. run. unfold setBrokers. cbn. by rewrite delete_delete_eq. }
  split; [apply lookup_delete_eq|]. split.
  { intros k Hk. by apply lookup_delete_ne. }
  repeat split.
  intros topic pid id_map p Ht Hp Hl. unfold getLeader. run. cbn.
  by rewrite Ht, Hp, Hl, lookup_delete_eq.
Qed.

(** X2.  [getDefault] returns none exactly when the slot is empty and
    [brokers] is empty.  A broker it returns is a known one and sits in the
    slot afterwards; the maps and the trace are left as they were. *)
Theorem getDefault_none_iff_no_broker s :
  ∃ d s',
    (∀ fuel, getDefault fuel s = Some (d, s')) ∧
    (d = None ↔
       brokerManager.defaultBroker (bm s) = None ∧ brokerManager.brokers (bm s) = ∅) ∧
    (∀ b, d = Some b → known (bm s) b) ∧
    (∀ b, brokerManager.defaultBroker (bm s) = Some b → d = Some b ∧ s' = s) ∧
    brokerManager.defaultBroker (bm s') = d ∧
    brokerManager.brokers (bm s') = brokerManager.brokers (bm s) ∧
    brokerManager.partitions (bm s') = brokerManager.partitions (bm s) ∧
    trace s' = trace s.
Proof.
  destruct (getDefault_total s) as (d & s' & Hd). exists d, s'.
  destruct (getDefault_inv _ _ _ _ (Hd 0)) as (Htr & Hbm & Hk).
  split; [done|]. split; [split|].
  - intros ->. exact Hk.
  - intros [Hnone Hemp]. destruct d as [b|]; [|done].
    destruct Hk as [Hk | [_ [k Hk]]]; [congruence|].
    by rewrite Hemp, lookup_empty in Hk.
  - split.
    { intros b ->. destruct Hk as [Hk | [_ Hk]]; [by left | by right]. }
    split.
    { intros b Hb. specialize (Hd 0). unfold getDefault in Hd. run.
      rewrite Hb in Hd. by injection Hd as <- <-. }
    rewrite Hbm. done.
Qed.

(** *** What [sendToAny] leaves behind *)

Lemma sendToAny_loop_outcome {Q R : Type} `{!Exchange Q R} n (req : Q) :
  ∀ (res : R) fuel s g err res' s',
    sendToAny_loop n req res fuel s = Some ((g, err, res'), s') →
    (err = Some OutOfBrokers ∧ g = false ∧
     brokerManager.defaultBroker (bm s') = None ∧ brokerManager.brokers (bm s') = ∅) ∨
    (isBrokerError err = false ∧
     ∃ bs b r0 w0,
       trace s' = trace s ++ (Sent inSendToAny <$> bs ++ [b]) ∧
       brokerManager.defaultBroker (bm s') = Some b ∧
       (∀ x, x ∈ bs → brokerManager.brokers (bm s') !! broker.id x = None) ∧
       sendAndReceive b (Client.id (brokerManager.client (bm s'))) req r0 w0
         = ((g, err, res'), world s') ∧
       known (bm s) b).
Proof.
  induction n as [|n IH]; intros res fuel s g err res' s' Hrun; [done|].
  destruct (getDefault fuel s) as [[d s1]|] eqn:Hd;
    [| by cbn [sendToAny_loop] in Hrun; rewrite bind_run, Hd in Hrun].
  rewrite (sendToAny_loop_step _ _ _ _ _ _ _ Hd) in Hrun.
  apply getDefault_inv in Hd as (Htr1 & Hbm1 & Hd).
  destruct d as [b|].
  { destruct (exchange _ _ _ _ _ _) as [[[[g1 e1] r1] s2]|] eqn:Hx; [|done].
    apply exchange_inv in Hx as (Hbm2 & Htr2 & Hsar).
    destruct (isBrokerError e1) eqn:He.
    - pose proof Hrun as Hsub.
      apply sendToAny_loop_inv in Hsub as (_ & _ & Hsub & _).
      apply IH in Hrun
        as [Hout | (Herr & bs & b' & r0 & w0 & Htr & Hdef & Hgone & Hsar' & Hkn)];
        [by left|].
      right. split; [done|]. exists (b :: bs), b', r0, w0.
      cbn in Htr. rewrite Htr, Htr2, Htr1, <- (assoc_L (++)).
      repeat split; try done.
      + intros x [-> | Hx]%elem_of_cons; [|by apply Hgone].
        eapply lookup_weaken_None; [|exact Hsub]. cbn. apply lookup_delete_eq.
      + destruct Hkn as [Hkn | [k Hk]]; [done|]. right. exists k.
        cbn in Hk. rewrite Hbm2, Hbm1 in Hk. cbn in Hk.
        by apply lookup_delete_Some in Hk as [_ Hk].
    - injection Hrun as <- <- <- <-. right. split; [done|].
      exists [], b, res, (world s1). rewrite Hbm2, Hbm1, Htr2, Htr1. cbn.
      repeat split; try done.
      + intros x Hx. by apply elem_of_nil in Hx.
      + by rewrite Hbm1 in Hsar.
      + destruct Hd as [Hd | [_ Hk]]; [by left | by right]. }
  injection Hrun as <- <- <- <-. left. rewrite Hbm1. cbn. by destruct Hd.
Qed.

Lemma sendToAny_loop_bound {Q R : Type} `{!Exchange Q R} n (req : Q) :
  ∀ (res : R) fuel s out s',
    wf (bm s) →
    sendToAny_loop n req res fuel s = Some (out, s') →
    ∃ bs, trace s' = trace s ++ (Sent inSendToAny <$> bs) ∧
          length bs ≤ size (brokerManager.brokers (bm s)) +
                       (match brokerManager.defaultBroker (bm s) with
                        | Some _ => 1
                        | None => 0
                        end).
Proof.
  induction n as [|n IH]; intros res fuel s out s' Hwf Hrun; [done|].
  destruct (getDefault fuel s) as [[d s1]|] eqn:Hd;
    [| by cbn [sendToAny_loop] in Hrun; rewrite bind_run, Hd in Hrun].
  rewrite (sendToAny_loop_step _ _ _ _ _ _ _ Hd) in Hrun.
  apply getDefault_inv in Hd as (Htr1 & Hbm1 & Hd).
  destruct d as [b|].
  2:{ injection Hrun as <- <-. exists []. rewrite Htr1, app_nil_r. split; [done|].
      cbn. lia. }
  destruct (exchange _ _ _ _ _ _) as [[[[g1 e1] r1] s2]|] eqn:Hx; [|done].
  apply exchange_inv in Hx as (Hbm2 & Htr2 & _).
  assert (Hpos : brokerManager.defaultBroker (bm s) = None →
                 0 < size (brokerManager.brokers (bm s)) ∧
                 is_Some (brokerManager.brokers (bm s) !! broker.id b)).
  { intros Hnone. destruct Hd as [Hd | [_ [k Hk]]]; [congruence|].
    rewrite (Hwf _ _ Hk). split; [|eauto].
    destruct (size (brokerManager.brokers (bm s))) eqn:Hsz; [|lia].
    apply map_size_empty_inv in Hsz. by rewrite Hsz, lookup_empty in Hk. }
  destruct (isBrokerError e1).
  - apply IH in Hrun as (bs & Htr & Hlen).
    2:{ intros k v Hk. cbn in Hk. rewrite Hbm2, Hbm1 in Hk. cbn in Hk.
        apply lookup_delete_Some in Hk as [_ Hk]. by apply Hwf. }
    cbn in Htr, Hlen. rewrite Hbm2, Hbm1 in Hlen. cbn in Hlen.
    exists (b :: bs). rewrite Htr, Htr2, Htr1, <- (assoc_L (++)). split; [done|].
    cbn [length]. rewrite map_size_delete in Hlen.
    destruct (brokerManager.defaultBroker (bm s)) as [d0|].
    + destruct (_ !! _); cbn in Hlen; lia.
    + destruct (Hpos eq_refl) as [Hsz [v Hv]]. rewrite Hv in Hlen. cbn in Hlen. lia.
  - injection Hrun as <- <-. exists [b]. rewrite Htr2, Htr1. split; [done|].
    cbn [length]. destruct (brokerManager.defaultBroker (bm s)) as [d0|]; [lia|].
    destruct (Hpos eq_refl). lia.
Qed.

(** X3.  The only broker error [sendToAny] returns is [OutOfBrokers], and
    when it does, [gotResponse] is false, the default slot is empty and
    [brokers] is empty: every broker tried has been discarded. *)
Theorem sendToAny_OutOfBrokers_empties_the_cache {Q R : Type} `{!Exchange Q R}
    (req : Q) (res : R) fuel s g err res' s' :
  sendToAny req res fuel s = Some ((g, err, res'), s') →
  isBrokerError err = true →
  err = Some OutOfBrokers ∧ g = false ∧
  brokerManager.defaultBroker (bm s') = None ∧
  brokerManager.brokers (bm s') = ∅ ∧
  brokerManager.partitions (bm s') = brokerManager.partitions (bm s).
Proof.
  intros Hrun Herr. pose proof Hrun as Hinv.
  apply sendToAny_inv in Hinv as (_ & Hp & _).
  apply sendToAny_loop_outcome in Hrun as [(-> & -> & Hd & Hb) | [Hno _]];
    [done | congruence].
Qed.

(** X4.  When [sendToAny] returns anything else, the result is what the
    last broker contacted gave; that broker sits in the default slot, and
    the ids of the brokers contacted before it are no longer in
    [brokers]. *)
Theorem sendToAny_answer_comes_from_the_default {Q R : Type} `{!Exchange Q R}
    (req : Q) (res : R) fuel s g err res' s' :
  sendToAny req res fuel s = Some ((g, err, res'), s') →
  err ≠ Some OutOfBrokers →
  isBrokerError err = false ∧
  ∃ bs b r0 w0,
    trace s' = trace s ++ (Sent inSendToAny <$> bs ++ [b]) ∧
    brokerManager.defaultBroker (bm s') = Some b ∧
    (∀ x, x ∈ bs → brokerManager.brokers (bm s') !! broker.id x = None) ∧
    sendAndReceive b (Client.id (brokerManager.client (bm s'))) req r0 w0
      = ((g, err, res'), world s').
Proof.
  intros Hrun Herr.
  apply sendToAny_loop_outcome in Hrun
    as [(-> & _) | (Hok & bs & b & r0 & w0 & Htr & Hd & Hgone & Hsar & _)]; [done|].
  split; [done|]. by exists bs, b, r0, w0.
Qed.

(** X5.  From a well-formed manager, [sendToAny] calls [sendAndReceive] at
    most once more than there are brokers in the map. *)
Theorem sendToAny_sends_at_most_brokers_plus_one {Q R : Type} `{!Exchange Q R}
    (req : Q) (res : R) fuel s out s' :
  wf (bm s) →
  sendToAny req res fuel s = Some (out, s') →
  ∃ evs, trace s' = trace s ++ evs ∧
         networkSends evs ≤ size (brokerManager.brokers (bm s)) + 1.
Proof.
  intros Hwf Hrun.
  apply sendToAny_loop_bound in Hrun as (bs & Htr & Hlen); [|done].
  exists (Sent inSendToAny <$> bs). split; [done|]. unfold networkSends.
  rewrite sendsFrom_Sent by done.
  assert (sendsFrom inSendToAny (Sent inSendToAny <$> bs) = length bs) as ->.
  { clear. induction bs as [|b bs IH]; [done|].
    rewrite fmap_cons. cbn [sendsFrom length]. rewrite IH.
    by destruct (decide (inSendToAny = inSendToAny)). }
  destruct (brokerManager.defaultBroker (bm s)); lia.
Qed.


(** *** The cache update, applied twice and outside the response *)

Section fold_insert_again.
Context `{Countable K} {A V : Type} (key : A → K) (val : A → V).

Lemma foldl_insert_lookup_ext l (m1 m2 : gmap K V) k :
  m1 !! k = m2 !! k →
  foldl (λ m x, <[key x := val x]> m) m1 l !! k
    = foldl (λ m x, <[key x := val x]> m) m2 l !! k.
Proof.
  revert m1 m2. induction l as [|a l IH]; intros m1 m2 Hk; [done|].
  cbn [foldl]. apply IH. rewrite !lookup_insert. by case_decide.
Qed.

Lemma foldl_insert_lookup_in l (m1 m2 : gmap K V) k :
  k ∈ key <$> l →
  foldl (λ m x, <[key x := val x]> m) m1 l !! k
    = foldl (λ m x, <[key x := val x]> m) m2 l !! k.
Proof.
  revert m1 m2. induction l as [|a l IH]; intros m1 m2 Hk;
    [by apply elem_of_nil in Hk|].
  cbn [foldl]. destruct (decide (k ∈ key <$> l)) as [Hl|Hl]; [by apply IH|].
  rewrite fmap_cons in Hk. apply elem_of_cons in Hk as [-> | Hk]; [|done].
  apply foldl_insert_lookup_ext. by rewrite !lookup_insert_eq.
Qed.

Lemma foldl_insert_idemp l (m : gmap K V) :
  foldl (λ m x, <[key x := val x]> m) (foldl (λ m x, <[key x := val x]> m) m l) l
    = foldl (λ m x, <[key x := val x]> m) m l.
Proof.
  apply map_eq. intros k. destruct (decide (k ∈ key <$> l)) as [Hk|Hk].
  - by apply foldl_insert_lookup_in.
  - by rewrite (foldl_insert_lookup_notin key val l _ k Hk).
Qed.

Lemma foldl_insert_insert_idemp l (m : gmap K V) n v :
  <[n := v]> (foldl (λ m x, <[key x := val x]> m)
                (<[n := v]> (foldl (λ m x, <[key x := val x]> m) m l)) l)
    = <[n := v]> (foldl (λ m x, <[key x := val x]> m) m l).
Proof.
  apply map_eq. intros k. rewrite !lookup_insert. case_decide; [done|].
  rewrite <- (foldl_insert_idemp l m) at 2.
  apply foldl_insert_lookup_ext. by rewrite lookup_insert_ne.
Qed.

End fold_insert_again.

Lemma putBrokers_idemp bs (m : gmap Z broker) :
  putBrokers bs (putBrokers bs m) = putBrokers bs m.
Proof. apply (foldl_insert_idemp broker.id (λ b, b)). Qed.

Lemma putTopics_idemp ts m : putTopics ts (putTopics ts m).1 = putTopics ts m.
Proof.
  destruct (decide (Forall topicOk ts)) as [Hok|Hnok].
  { rewrite !putTopics_ok by done. cbn. f_equal.
    apply (foldl_insert_idemp topicMetadata.name
             (λ t, partitionMap (topicMetadata.partitions t))). }
  destruct (first_failure topicOk _ Hnok) as (pre & t & post & -> & Hpre & Ht).
  destruct (decide (topicMetadata.err t = NO_ERROR)) as [Hterr|Hterr].
  - assert (Hps : ¬ Forall partitionOk (topicMetadata.partitions t)).
    { intros Hps. by apply Ht. }
    destruct (first_failure partitionOk _ Hps) as (ppre & p & ppost & Hpps & Hppre & Hp).
    rewrite !(putTopics_stop_partition _ _ _ _ _ _ _ Hpre Hterr Hpps Hppre Hp).
    cbn. f_equal.
    apply (foldl_insert_insert_idemp topicMetadata.name
             (λ t, partitionMap (topicMetadata.partitions t))).
  - rewrite !(putTopics_stop_topic _ _ _ _ Hpre Hterr). cbn. f_equal.
    apply (foldl_insert_idemp topicMetadata.name
             (λ t, partitionMap (topicMetadata.partitions t))).
Qed.

Lemma putPartitions_other name ps m n :
  n ≠ name → (putPartitions name ps m).1 !! n = m !! n.
Proof.
  intros Hn. revert m. induction ps as [|p ps IH]; intros m; [done|].
  cbn [putPartitions]. destruct (decide (_ ≠ _)); [done|].
  rewrite IH. by apply lookup_alter_ne.
Qed.

Lemma putTopics_other ts m n :
  n ∉ topicMetadata.name <$> ts → (putTopics ts m).1 !! n = m !! n.
Proof.
  revert m. induction ts as [|t ts IH]; intros m Hn; [done|].
  rewrite fmap_cons, not_elem_of_cons in Hn. destruct Hn as [Hne Hn].
  cbn [putTopics]. destruct (decide (_ ≠ _)); [done|].
  pose proof (putPartitions_other (topicMetadata.name t) (topicMetadata.partitions t)
                (<[topicMetadata.name t := ∅]> m) n Hne) as Hpp.
  destruct (putPartitions _ _ _) as [m' [e|]]; cbn in Hpp |- *.
  - by rewrite Hpp, lookup_insert_ne.
  - by rewrite IH, Hpp, lookup_insert_ne.
Qed.

(** X6.  Applying the same decoded response a second time changes nothing:
    the cache and the error returned are those of the first time. *)
Theorem replaceFromMetadata_idempotent response (b : brokerManager) :
  replaceFromMetadata response (replaceFromMetadata response b).1
    = replaceFromMetadata response b.
Proof.
  apply injective_projections.
  - rewrite !replaceFromMetadata_fst. cbn.
    rewrite putBrokers_idemp, putTopics_idemp. done.
  - by rewrite !replaceFromMetadata_snd.
Qed.

(** X7.  The cache update touches only what the response names, whether it
    ends with an error or not: a topic the response does not name keeps its
    entry, a broker id the response does not list keeps its broker, no
    broker id is removed, and the default slot and the client stay. *)
Theorem replaceFromMetadata_frame response (b : brokerManager) :
  (∀ n, n ∉ topicMetadata.name <$> metadata.topics response →
        brokerManager.partitions (replaceFromMetadata response b).1 !! n
          = brokerManager.partitions b !! n) ∧
  (∀ k, k ∉ broker.id <$> metadata.brokers response →
        brokerManager.brokers (replaceFromMetadata response b).1 !! k
          = brokerManager.brokers b !! k) ∧
  (∀ k, is_Some (brokerManager.brokers b !! k) →
        is_Some (brokerManager.brokers (replaceFromMetadata response b).1 !! k)) ∧
  (∀ x, x ∈ metadata.brokers response →
        is_Some (brokerManager.brokers (replaceFromMetadata response b).1 !! broker.id x)) ∧
  brokerManager.defaultBroker (replaceFromMetadata response b).1
    = brokerManager.defaultBroker b ∧
  brokerManager.client (replaceFromMetadata response b).1 = brokerManager.client b.
Proof.
  rewrite replaceFromMetadata_fst. cbn. repeat split.
  - intros n Hn. by apply putTopics_other.
  - intros k Hk. by apply (foldl_insert_lookup_notin broker.id (λ b, b)).
  - intros k Hk. apply putBrokers_is_Some. by left.
  - intros x Hx. apply putBrokers_is_Some. right. by apply list_elem_of_fmap_2.
Qed.


(** *** Leader resolution and dispatch *)

Lemma getLeader_total topic pid s :
  ∃ l, (∀ fuel, getLeader topic pid fuel s = Some (l, s)) ∧
       (∀ b, l = Some b →
          ∃ id_map p,
            brokerManager.partitions (bm s) !! topic = Some id_map ∧
            id_map !! pid = Some p ∧
            brokerManager.brokers (bm s) !! partitionMetadata.leader p = Some b).
Proof.
  eexists. split; [reflexivity|]. intros b Hb.
  destruct (brokerManager.partitions (bm s) !! topic) as [id_map|]; [|done].
  destruct (id_map !! pid) as [p|] eqn:Hp; [|done]. by exists id_map, p.
Qed.

Lemma getValidLeader_post `{!Exchange metadataRequest metadata} topic pid fuel s r s' :
  getValidLeader topic pid fuel s = Some (r, s') →
  (∀ b, r = Ok b → getLeader topic pid fuel s' = Some (Some b, s')) ∧
  (∀ e, r = Err e →
     ∃ bs, trace s' = trace s ++ Refreshed [topic] :: (Sent inSendToAny <$> bs)) ∧
  (∀ b, getLeader topic pid fuel s = Some (Some b, s) → r = Ok b ∧ s' = s) ∧
  (getLeader topic pid fuel s = Some (None, s) →
     ∃ bs, trace s' = trace s ++ Refreshed [topic] :: (Sent inSendToAny <$> bs)).
Proof.
  unfold getValidLeader. intros Hrun.
  destruct (getLeader_total topic pid s) as (l & Hl & _).
  rewrite bind_run, (Hl fuel) in Hrun. rewrite !(Hl fuel).
  destruct l as [b|].
  { injection Hrun as <- <-. rewrite (Hl fuel).
    split; [by intros b' [= <-]|]. split; [done|].
    split; [by intros b' [= <-] | done]. }
  apply bind_inv in Hrun as (err & s1 & Href & Hrun).
  apply refreshTopics_inv in Href as (_ & _ & bs & Htr).
  destruct err as [e|].
  { injection Hrun as <- <-. split; [done|]. split; [eauto|]. split; [done | eauto]. }
  destruct (getLeader_total topic pid s1) as (l1 & Hl1 & _).
  rewrite bind_run, (Hl1 fuel) in Hrun.
  destruct l1 as [b|]; injection Hrun as <- <-; rewrite ?(Hl1 fuel).
  - split; [by intros b' [= <-]|]. split; [done|]. split; [done | eauto].
  - split; [done|]. split; [eauto|]. split; [done | eauto].
Qed.

(** X8.  A broker that [getValidLeader] returns is the leader the cache
    holds for the partition when it returns.  On a cache hit nothing is
    refreshed and the state is left as it was; an error comes only after one
    refresh of the topic. *)
Theorem getValidLeader_returns_the_cached_leader `{!Exchange metadataRequest metadata}
    topic pid fuel s r s' :
  getValidLeader topic pid fuel s = Some (r, s') →
  (∀ b, r = Ok b → getLeader topic pid fuel s' = Some (Some b, s')) ∧
  (∀ e, r = Err e →
     ∃ bs, trace s' = trace s ++ Refreshed [topic] :: (Sent inSendToAny <$> bs)) ∧
  (∀ b, getLeader topic pid fuel s = Some (Some b, s) → r = Ok b ∧ s' = s).
Proof.
  intros Hrun. apply getValidLeader_post in Hrun as (H1 & H2 & H3 & _). auto.
Qed.

(** X9.  For a topic the cache holds, [partitionsForTopic] returns without
    a refresh or a send: the manager and the trace are unchanged, and the
    list holds every partition id of the topic's map exactly once. *)
Theorem partitionsForTopic_cached `{!Exchange metadataRequest metadata} topic id_map s :
  brokerManager.partitions (bm s) !! topic = Some id_map →
  ∃ ids s',
    (∀ fuel, partitionsForTopic topic fuel s = Some (Ok ids, s')) ∧
    bm s' = bm s ∧ trace s' = trace s ∧
    NoDup ids ∧ length ids = size id_map ∧
    (∀ k, k ∈ ids ↔ is_Some (id_map !! k)).
Proof.
  intros Hmap.
  destruct (rangeKeys_total id_map s) as (ids & s' & Hids).
  destruct (rangeKeys_inv _ _ _ _ _ (Hids 0)) as (Hperm & Hbm & Htr).
  exists ids, s'. split.
  { intros fuel. unfold partitionsForTopic. rewrite bind_run. cbn [getBM].
    by rewrite Hmap, bind_run, Hids. }
  repeat split; try done.
  - rewrite Hperm. apply NoDup_fst_map_to_list.
  - rewrite Hperm. unfold keys. by rewrite length_fmap, length_map_to_list.
  - rewrite Hperm. apply elem_of_keys.
  - rewrite Hperm. apply elem_of_keys.
Qed.

(** X10.  When the first send of [sendToPartition] comes back without an
    error and either without a response or with a response that reports no
    stale topic, that result is returned at once: one send, no refresh, and
    the manager as the leader resolution left it. *)
Theorem sendToPartition_first_answer_is_final {Q R : Type}
    `{!Exchange metadataRequest metadata, !Exchange Q R, !responseDecoder R}
    topic pid (req : Q) (res : R) fuel s b s1 g res1 w1 :
  getValidLeader topic pid fuel s = Some (Ok b, s1) →
  sendAndReceive b (Client.id (brokerManager.client (bm s1))) req res (world s1)
    = ((g, None, res1), w1) →
  (g = true → staleTopics res1 = []) →
  sendToPartition topic pid req res fuel s
    = Some ((g, None, res1), mkState (bm s1) w1 (trace s1 ++ [Sent inSendToPartition b])).
Proof.
  intros Hres Hsar Hstale.
  unfold sendToPartition. rewrite bind_run, Hres. cbn beta iota.
  rewrite bind_run. unfold exchange. rewrite Hsar. cbn beta iota zeta.
  destruct g; [|done]. rewrite (Hstale eq_refl). done.
Qed.

(** X11.  After a broker error on the first send, the retry of
    [sendToPartition] cannot reuse the cached leader: the next thing the
    call does is a refresh of the topic, through [getValidLeader]. *)
Theorem sendToPartition_broker_error_refreshes {Q R : Type}
    `{!Exchange metadataRequest metadata, !Exchange Q R, !responseDecoder R}
    topic pid (req : Q) (res : R) fuel s b s1 g e res1 w1 out s' :
  wf (bm s1) →
  getValidLeader topic pid fuel s = Some (Ok b, s1) →
  sendAndReceive b (Client.id (brokerManager.client (bm s1))) req res (world s1)
    = ((g, Some e, res1), w1) →
  isBrokerError (Some e) = true →
  sendToPartition topic pid req res fuel s = Some (out, s') →
  ∃ evs, trace s' = trace s1 ++ Sent inSendToPartition b :: Refreshed [topic] :: evs.
Proof.
  intros Hwf Hres Hsar Hbe Hrun.
  pose proof (getValidLeader_post _ _ _ _ _ _ Hres) as (Hlead & _).
  specialize (Hlead b eq_refl).
  destruct (getLeader_total topic pid s1) as (l & Hl & Hlook).
  rewrite (Hl fuel) in Hlead. injection Hlead as ->.
  destruct (Hlook b eq_refl) as (id_map & p & Hmap & Hp & Hb).
  pose proof (Hwf _ _ Hb) as Hid.
  unfold sendToPartition in Hrun. rewrite bind_run, Hres in Hrun. cbn beta iota in Hrun.
  rewrite bind_run in Hrun. unfold exchange at 1 in Hrun. rewrite Hsar in Hrun.
  cbn beta iota in Hrun.
  assert (Hretry :
    (terminateBroker (broker.id b) ≫= λ _, sendToPartition_again topic pid req res1) fuel
      (mkState (bm s1) w1 (trace s1 ++ [Sent inSendToPartition b])) = Some (out, s')).
  { by destruct e. }
  clear Hrun. apply bind_inv in Hretry as ([] & s3 & [= <-] & Hrun).
  unfold sendToPartition_again in Hrun.
  apply bind_inv in Hrun as (r & s4 & Hres2 & Hrun).
  apply getValidLeader_post in Hres2 as (_ & _ & _ & Hmiss).
  destruct Hmiss as (bs & Htr4).
  { unfold getLeader. run. cbn. by rewrite Hmap, Hp, <- Hid, lookup_delete_eq. }
  cbn in Htr4. rewrite <- (assoc_L (++)) in Htr4. cbn in Htr4.
  destruct r as [b'|e'].
  - apply exchange_inv in Hrun as (_ & Htr5 & _).
    rewrite Htr5, Htr4, <- (assoc_L (++)). cbn. eauto.
  - injection Hrun as <- <-. rewrite Htr4. eauto.
Qed.

(** X12.  For a topic absent from the cache, when the refresh succeeds
    with a response that does not name the topic, [sendToPartition] returns
    [(false, UNKNOWN_TOPIC_OR_PARTITION)] and the request is never sent. *)
Theorem sendToPartition_unknown_topic {Q R : Type}
    `{!Exchange metadataRequest metadata, !Exchange Q R, !responseDecoder R}
    topic pid (req : Q) (res : R) fuel s g response s1 :
  brokerManager.partitions (bm s) !! topic = None →
  sendToAny (metadataRequest.mk [topic]) new_metadata fuel (refreshing [topic] s)
    = Some ((g, None, response), s1) →
  Forall topicOk (metadata.topics response) →
  topic ∉ topicMetadata.name <$> metadata.topics response →
  ∃ s2,
    sendToPartition topic pid req res fuel s
      = Some ((false, Some (ErrK UNKNOWN_TOPIC_OR_PARTITION), res), s2) ∧
    bm s2 = (replaceFromMetadata response (bm s1)).1 ∧
    sendsFrom inSendToPartition (trace s2) = sendsFrom inSendToPartition (trace s).
Proof.
  intros Hnone Hany Hok Hname.
  pose proof (refreshTopics_applied _ _ _ _ _ _ Hany) as Href.
  rewrite replaceFromMetadata_snd, (proj2 (topicOk_codes _) Hok) in Href. cbn in Href.
  pose proof Hany as Hinv. apply sendToAny_inv in Hinv as (_ & Hparts & _ & bs & Htr & _).
  cbn in Hparts, Htr.
  eexists. split.
  { unfold sendToPartition, getValidLeader. rewrite !bind_run.
    unfold getLeader at 1. run. cbn. rewrite Hnone.
    unfold refreshTopic. rewrite Href. cbn.
    rewrite replaceFromMetadata_fst. cbn.
    rewrite putTopics_other, Hparts, Hnone by done. reflexivity. }
  split; [cbn; by rewrite replaceFromMetadata_fst, Hparts|].
  cbn. rewrite Htr, !sendsFrom_app. cbn. rewrite sendsFrom_Sent by done. lia.
Qed.

(** *** Construction *)

(** X13.  [newBrokerManager] returns the error of [newBroker] when the
    broker cannot be made, and the error of the first refresh when that one
    fails.  A manager it returns is well-formed, holds the given client and
    has the bootstrap broker in its default slot. *)
Theorem newBrokerManager_outcomes `{!Exchange metadataRequest metadata}
    client host port fuel w r w' :
  newBrokerManager client host port fuel w = Some (r, w') →
  ∃ r0 w1, newBroker host port w = (r0, w1) ∧
    match r0 with
    | Err e => r = Err e ∧ w' = w1
    | Ok b0 =>
        match r with
        | Ok b =>
            wf b ∧ brokerManager.client b = client ∧
            brokerManager.defaultBroker b = Some b0
        | Err e =>
            ∃ s, refreshTopics [] fuel
                   (mkState (brokerManager.mk client (Some b0) ∅ ∅) w1 [])
                 = Some (Some e, s)
        end
    end.
Proof.
  unfold newBrokerManager. destruct (newBroker host port w) as [[b0|e] w1].
  2:{ intros [= <- <-]. by eexists _, _. }
  intros Hrun. eexists _, _. split; [done|].
  destruct (refreshTopics _ _ _) as [[[e|] s]|] eqn:Href; [| |done].
  { injection Hrun as <- <-. eauto. }
  injection Hrun as <- <-.
  pose proof (refreshTopics_inv _ _ _ _ _ Href) as (Hc & Hwf & _).
  split; [apply Hwf, map_Forall_empty|]. split; [done|].
  rewrite refreshTopics_run in Href.
  destruct (sendToAny _ _ _ _) as [[[[g err] response] s1]|] eqn:Hany; [|done].
  destruct err as [e|]; [done|]. injection Href as _ <-. cbn.
  rewrite replaceFromMetadata_fst. cbn.
  apply sendToAny_loop_outcome in Hany
    as [(Hoob & _) | (_ & bs & b & r0 & w0 & _ & Hd & _ & _ & Hkn)]; [done|].
  rewrite Hd. destruct Hkn as [Hkn | [k Hk]]; cbn in *; [congruence|].
  by rewrite lookup_empty in Hk.
Qed.

(** X14.  When every [sendAndReceive] of the metadata request on the
    bootstrap broker fails with a broker error, [newBrokerManager] returns
    [OutOfBrokers]: no manager is built. *)
Theorem newBrokerManager_unreachable_bootstrap `{!Exchange metadataRequest metadata}
    client host port w b0 w1 :
  newBroker host port w = (Ok b0, w1) →
  (∀ cid r w,
     isBrokerError (sendAndReceive b0 cid (metadataRequest.mk []) r w).1.1.2 = true) →
  ∃ w', ∀ fuel, 2 ≤ fuel →
    newBrokerManager client host port fuel w = Some (Err OutOfBrokers, w').
Proof.
  intros Hnew Hfail.
  set (s0 := refreshing [] (mkState (brokerManager.mk client (Some b0) ∅ ∅) w1 [])).
  assert (Hwf : wf (bm s0)) by apply map_Forall_empty.
  destruct (sendToAny_loop_total (metadataRequest.mk []) new_metadata s0 Hwf)
    as (out & s' & Hloop).
  assert (Hsz : size (brokerManager.brokers (bm s0)) = 0) by apply map_size_empty.
  assert (Hout : ∃ res', out = (false, Some OutOfBrokers, res')).
  { eapply (sendToAny_loop_all_fail _ _ new_metadata 0 s0); [|apply (Hloop 2 0); lia].
    intros b [Hb | [k Hk]]; cbn in *; [|by rewrite lookup_empty in Hk].
    injection Hb as <-. apply Hfail. }
  destruct Hout as [res' ->].
  exists (world s'). intros fuel Hf. unfold newBrokerManager. rewrite Hnew.
  rewrite refreshTopics_run. fold s0. unfold sendToAny.
  rewrite (Hloop fuel fuel) by lia. done.
Qed.

(** X15.  Every method keeps the manager well-formed: in [brokers], each
    broker stays stored under its own id. *)
Theorem wf_is_kept {Q R : Type}
    `{!Exchange metadataRequest metadata, !Exchange Q R, !responseDecoder R} fuel s s' :
  wf (bm s) →
  (∀ id, terminateBroker id fuel s = Some ((), s') → wf (bm s')) ∧
  (∀ d, getDefault fuel s = Some (d, s') → wf (bm s')) ∧
  (∀ (req : Q) (res : R) out, sendToAny req res fuel s = Some (out, s') → wf (bm s')) ∧
  (∀ topics e, refreshTopics topics fuel s = Some (e, s') → wf (bm s')) ∧
  (∀ topic pid r, getValidLeader topic pid fuel s = Some (r, s') → wf (bm s')) ∧
  (∀ topic r, partitionsForTopic topic fuel s = Some (r, s') → wf (bm s')) ∧
  (∀ topic pid (req : Q) (res : R) out,
     sendToPartition topic pid req res fuel s = Some (out, s') → wf (bm s')).
Proof.
  intros Hwf. repeat split.
  - intros id Hrun. by eapply terminateBroker_wf.
  - intros d Hrun. apply getDefault_inv in Hrun as (_ & -> & _). done.
  - intros req res out Hrun. by eapply sendToAny_wf.
  - intros topics e Hrun. apply refreshTopics_inv in Hrun as (_ & Hk & _). auto.
  - intros topic pid r Hrun. apply getValidLeader_inv in Hrun as (_ & Hk & _). auto.
  - intros topic r Hrun. by eapply partitionsForTopic_wf.
  - intros topic pid req res out Hrun. by eapply sendToPartition_wf.
Qed.


(** *** Where the request goes *)

Lemma getLeader_same_bm topic pid fuel fuel' s s' l :
  bm s' = bm s →
  getLeader topic pid fuel s = Some (l, s) →
  getLeader topic pid fuel' s' = Some (l, s').
Proof.
  intros Hbm Hl. unfold getLeader in *. run. rewrite Hbm. by injection Hl as ->.
Qed.

Lemma foldl_insert_lookup_NoDup `{Countable K} {A V : Type} (key : A → K) (val : A → V)
    l (m : gmap K V) x :
  NoDup (key <$> l) → x ∈ l →
  foldl (λ m x, <[key x := val x]> m) m l !! key x = Some (val x).
Proof.
  revert m. induction l as [|a l IH]; intros m Hnd Hx; [by apply elem_of_nil in Hx|].
  rewrite fmap_cons in Hnd. apply NoDup_cons in Hnd as [Ha Hnd].
  apply elem_of_cons in Hx as [-> | Hx].
  - cbn [foldl]. rewrite foldl_insert_lookup_notin by done. apply lookup_insert_eq.
  - cbn [foldl]. by apply IH.
Qed.

(** X16.  When the first response reports stale topics, the next thing
    [sendToPartition] does is a refresh of exactly these topics. *)
Theorem sendToPartition_refreshes_the_stale_topics {Q R : Type}
    `{!Exchange metadataRequest metadata, !Exchange Q R, !responseDecoder R}
    topic pid (req : Q) (res : R) fuel s b s1 res1 w1 out s' :
  getValidLeader topic pid fuel s = Some (Ok b, s1) →
  sendAndReceive b (Client.id (brokerManager.client (bm s1))) req res (world s1)
    = ((true, None, res1), w1) →
  staleTopics res1 ≠ [] →
  sendToPartition topic pid req res fuel s = Some (out, s') →
  ∃ evs, trace s' = trace s1 ++
           Sent inSendToPartition b :: Refreshed (staleTopics res1) :: evs.
Proof.
  intros Hres Hsar Hstale Hrun.
  unfold sendToPartition in Hrun. rewrite bind_run, Hres in Hrun. cbn beta iota in Hrun.
  rewrite bind_run in Hrun. unfold exchange at 1 in Hrun. rewrite Hsar in Hrun.
  cbn beta iota zeta in Hrun.
  destruct (decide (length (staleTopics res1) = 0)) as [Hlen|_].
  { by apply nil_length_inv in Hlen. }
  apply bind_inv in Hrun as (err & s3 & Href & Hrun).
  apply refreshTopics_inv in Href as (_ & _ & bs & Htr3).
  cbn in Htr3. rewrite <- (assoc_L (++)) in Htr3. cbn in Htr3.
  destruct err as [e|]; [injection Hrun as <- <-; eauto|].
  unfold sendToPartition_again in Hrun.
  apply bind_inv in Hrun as (r & s4 & Hres2 & Hrun).
  apply getValidLeader_inv in Hres2 as (_ & _ & evs4 & Htr4 & _).
  destruct r as [b'|e'].
  - apply exchange_inv in Hrun as (_ & Htr5 & _).
    rewrite Htr5, Htr4, Htr3, <- !(assoc_L (++)). cbn. eauto.
  - injection Hrun as <- <-. rewrite Htr4, Htr3, <- !(assoc_L (++)). cbn. eauto.
Qed.

(** X17.  When [sendToPartition] returns without an error, the last thing
    it did was to send the request to a broker, and this broker is the
    leader that the cache it leaves holds for the partition. *)
Theorem sendToPartition_answer_comes_from_the_leader {Q R : Type}
    `{!Exchange metadataRequest metadata, !Exchange Q R, !responseDecoder R}
    topic pid (req : Q) (res : R) fuel s g res' s' :
  sendToPartition topic pid req res fuel s = Some ((g, None, res'), s') →
  ∃ evs b, trace s' = trace s ++ evs ++ [Sent inSendToPartition b] ∧
           getLeader topic pid fuel s' = Some (Some b, s').
Proof.
  unfold sendToPartition. intros Hrun.
  apply bind_inv in Hrun as (r & s1 & Hres & Hrun).
  pose proof (getValidLeader_post _ _ _ _ _ _ Hres) as (Hlead & _).
  apply getValidLeader_inv in Hres as (_ & _ & evs1 & Htr1 & _).
  destruct r as [b|e0]; [|done]. specialize (Hlead b eq_refl).
  apply bind_inv in Hrun as ([[g1 e1] res1] & s2 & Hx & Hrun).
  apply exchange_inv in Hx as (Hbm2 & Htr2 & _).
  assert (Hfirst : ∃ evs b, trace s2 = trace s ++ evs ++ [Sent inSendToPartition b] ∧
                            getLeader topic pid fuel s2 = Some (Some b, s2)).
  { exists evs1, b. rewrite Htr2, Htr1, (assoc_L (++)). split; [done|].
    by eapply getLeader_same_bm. }
  assert (Hagain : ∀ s3 evs3,
    trace s3 = trace s ++ evs3 →
    sendToPartition_again topic pid req res1 fuel s3 = Some ((g, None, res'), s') →
    ∃ evs b, trace s' = trace s ++ evs ++ [Sent inSendToPartition b] ∧
             getLeader topic pid fuel s' = Some (Some b, s')).
  { intros s3 evs3 Htr3 Hag. unfold sendToPartition_again in Hag.
    apply bind_inv in Hag as (r & s4 & Hres2 & Hag).
    pose proof (getValidLeader_post _ _ _ _ _ _ Hres2) as (Hlead2 & _).
    apply getValidLeader_inv in Hres2 as (_ & _ & evs4 & Htr4 & _).
    destruct r as [b'|e']; [|done]. specialize (Hlead2 b' eq_refl).
    apply exchange_inv in Hag as (Hbm5 & Htr5 & _).
    exists (evs3 ++ evs4), b'. rewrite Htr5, Htr4, Htr3, <- !(assoc_L (++)).
    split; [done|]. by eapply getLeader_same_bm. }
  destruct e1 as [[msg|code| |msg]|].
  - done.
  - apply bind_inv in Hrun as ([] & s3 & [= <-] & Hrun).
    destruct Hfirst as (evs & b0 & Htr & _). eapply Hagain; [|exact Hrun]. exact Htr.
  - apply bind_inv in Hrun as ([] & s3 & [= <-] & Hrun).
    destruct Hfirst as (evs & b0 & Htr & _). eapply Hagain; [|exact Hrun]. exact Htr.
  - apply bind_inv in Hrun as ([] & s3 & [= <-] & Hrun).
    destruct Hfirst as (evs & b0 & Htr & _). eapply Hagain; [|exact Hrun]. exact Htr.
  - destruct g1; [|by injection Hrun as <- <- <-].
    cbv zeta in Hrun. destruct (decide _); [by injection Hrun as <- <- <-|].
    apply bind_inv in Hrun as (err & s3 & Href & Hrun).
    apply refreshTopics_inv in Href as (_ & _ & bs & Htr3).
    destruct err as [e3|]; [done|].
    destruct Hfirst as (evs & b0 & Htr & _).
    eapply Hagain; [|exact Hrun]. rewrite Htr3, Htr, <- (assoc_L (++)). done.
Qed.

(** X18.  What a successful refresh stores, [getLeader] finds: when the
    response names each topic, each partition id of the topic and each
    broker id once, [getLeader] returns, for a partition record of the
    response, the broker the response lists under the record's leader
    id. *)
Theorem refreshTopics_then_getLeader `{!Exchange metadataRequest metadata}
    topics fuel s g response s1 t p x :
  sendToAny (metadataRequest.mk topics) new_metadata fuel (refreshing topics s)
    = Some ((g, None, response), s1) →
  Forall topicOk (metadata.topics response) →
  NoDup (topicMetadata.name <$> metadata.topics response) →
  NoDup (partitionMetadata.id <$> topicMetadata.partitions t) →
  NoDup (broker.id <$> metadata.brokers response) →
  t ∈ metadata.topics response → p ∈ topicMetadata.partitions t →
  x ∈ metadata.brokers response → broker.id x = partitionMetadata.leader p →
  ∃ s', refreshTopics topics fuel s = Some (None, s') ∧
        getLeader (topicMetadata.name t) (partitionMetadata.id p) fuel s'
          = Some (Some x, s').
Proof.
  intros Hany Hok Hnt Hnp Hnb Ht Hp Hx Hid.
  rewrite (refreshTopics_applied _ _ _ _ _ _ Hany).
  rewrite replaceFromMetadata_snd, (proj2 (topicOk_codes _) Hok). cbn.
  eexists. split; [reflexivity|].
  unfold getLeader. run. cbn. rewrite replaceFromMetadata_fst. cbn.
  rewrite putTopics_ok by done. cbn. unfold replaced.
  rewrite (foldl_insert_lookup_NoDup topicMetadata.name
             (λ t, partitionMap (topicMetadata.partitions t))) by done.
  unfold partitionMap.
  rewrite (foldl_insert_lookup_NoDup partitionMetadata.id (λ p, p)) by done.
  rewrite <- Hid. unfold putBrokers.
  by rewrite (foldl_insert_lookup_NoDup broker.id (λ b, b)).
Qed.

End Runs.

(** ** The claims on the scripted cluster *)

Section OnTheScriptedCluster.
Import Scripted.
#[local] Existing Instances cluster metadataExchange requestExchange decoder.

Ltac computed := vm_compute; reflexivity.
Ltac decided := apply (bool_decide_unpack _); vm_compute; exact I.

(** C1 fails as stated: in [moved] the second send returns [(true, nil)]
    with a response that still reports ["t"] as stale, and
    [sendToPartition] returns it as it is. *)
Lemma sendToPartition_stale_after_retry :
  ¬ (∀ (C : Cluster) (Q R : Type) (E : Exchange metadataRequest metadata)
       (X : Exchange Q R) (D : responseDecoder R)
       topic pid (req : Q) (res : R) fuel s res' s',
       sendToPartition topic pid req res fuel s = Some ((true, None, res'), s') →
       staleTopics res' = []).
Proof.
  intros Hall.
  assert (∃ s', sendToPartition "t" 0 "req" [] 5 moved = Some ((true, None, ["t"]), s'))
    as [s' Hrun] by (eexists; computed).
  specialize (Hall _ _ _ _ _ _ _ _ _ _ _ _ _ _ Hrun). discriminate Hall.
Qed.

Lemma sendToPartition_first_attempt_not_stale_witness :
  ∃ s', sendToPartition "t" 0 "req" ["old"] 5 settled = Some ((true, None, []), s') ∧
        staleTopics (R := list string) [] = [].
Proof.
  eexists. split; [computed|].
  eapply (sendToPartition_first_attempt_not_stale "t" 0 "req" ["old"] 5 settled);
    [computed | computed].
Defined.

(** C2 fails as stated: in [moved] the call makes three network sends, two
    of the request and one of a metadata request. *)
Lemma sendToPartition_three_network_sends :
  ¬ (∀ (C : Cluster) (Q R : Type) (E : Exchange metadataRequest metadata)
       (X : Exchange Q R) (D : responseDecoder R)
       topic pid (req : Q) (res : R) fuel s out s' evs,
       sendToPartition topic pid req res fuel s = Some (out, s') →
       trace s' = trace s ++ evs →
       networkSends evs ≤ 2).
Proof.
  intros Hall.
  assert (∃ out s', sendToPartition "t" 0 "req" [] 5 moved = Some (out, s') ∧
            trace s' = trace moved ++
              [Sent inSendToPartition b1; Refreshed ["t"]; Sent inSendToAny b1;
               Sent inSendToPartition b2])
    as (out & s' & Hrun & Htr) by (eexists _, _; split; computed).
  specialize (Hall _ _ _ _ _ _ _ _ _ _ _ _ _ _ _ Hrun Htr).
  vm_compute in Hall. lia.
Qed.

Lemma sendToPartition_sends_request_at_most_twice_witness :
  terminates (sendToPartition "t" 0 "req" []) moved ∧
  ∃ out s', sendToPartition "t" 0 "req" [] 5 moved = Some (out, s') ∧
    ∃ evs, trace s' = trace moved ++ evs ∧ sendsFrom inSendToPartition evs ≤ 2.
Proof.
  split.
  - apply (sendToPartition_sends_request_at_most_twice "t" 0 "req" [] moved). decided.
  - eexists _, _. split; [computed|].
    eapply (proj2 (sendToPartition_sends_request_at_most_twice "t" 0 "req" [] moved) 5).
    computed.
Defined.

Lemma sendToAny_out_of_brokers_witness :
  ∃ res' s' bs,
    returns (sendToAny (Exchange0 := unreachable) "req" []) outage
      (false, Some OutOfBrokers, res') s' ∧
    trace s' = trace outage ++ (Sent inSendToAny <$> bs) ∧
    Forall (known (bm outage)) bs ∧
    NoDup (broker.id <$> bs).
Proof.
  apply (sendToAny_out_of_brokers (Exchange0 := unreachable) "req" [] outage).
  - decided.
  - intros b _ cid r w. reflexivity.
Defined.

Lemma refreshTopics_first_error_witness :
  ∃ e s2 pre t post,
    refreshTopics ["t"] 5 partial = Some (Some (ErrK e), s2) ∧
    firstError (errorCodes (metadata.topics partial_response)) = Some e ∧
    metadata.topics partial_response = pre ++ t :: post ∧ Forall topicOk pre ∧
    brokerManager.brokers (bm s2) =
      putBrokers (metadata.brokers partial_response)
        (brokerManager.brokers (bm partial_decoded)) ∧
    ((topicMetadata.err t = e ∧ e ≠ NO_ERROR ∧
      brokerManager.partitions (bm s2) =
        replaced pre (brokerManager.partitions (bm partial_decoded))) ∨
     (topicMetadata.err t = NO_ERROR ∧
      ∃ ppre p ppost,
        topicMetadata.partitions t = ppre ++ p :: ppost ∧ Forall partitionOk ppre ∧
        partitionMetadata.err p = e ∧ e ≠ NO_ERROR ∧
        brokerManager.partitions (bm s2) =
          <[topicMetadata.name t := partitionMap ppre]>
            (replaced pre (brokerManager.partitions (bm partial_decoded))))).
Proof.
  apply (refreshTopics_first_error ["t"] 5 partial true partial_response partial_decoded).
  - computed.
  - decided.
Defined.

(** C5 fails as stated: in [leaderless] the refresh returns nil and caches
    a record whose leader, 7, is not a key of [brokers]. *)
Lemma refreshTopics_leader_not_cached :
  ¬ (∀ (C : Cluster) (E : Exchange metadataRequest metadata)
       topics fuel s g err response s1 s',
       sendToAny (metadataRequest.mk topics) new_metadata fuel (refreshing topics s)
         = Some ((g, err, response), s1) →
       refreshTopics topics fuel s = Some (None, s') →
       ∀ t id_map pid p,
         t ∈ metadata.topics response →
         brokerManager.partitions (bm s') !! topicMetadata.name t = Some id_map →
         id_map !! pid = Some p →
         is_Some (brokerManager.brokers (bm s') !! partitionMetadata.leader p)).
Proof.
  intros Hall.
  assert (∃ s1, sendToAny (metadataRequest.mk ["t"]) new_metadata 5
                  (refreshing ["t"] leaderless)
                = Some ((true, None, metadata.mk [] [topic "t" [record 0 7]]), s1))
    as (s1 & Hany) by (eexists; computed).
  assert (∃ s', refreshTopics ["t"] 5 leaderless = Some (None, s') ∧
            brokerManager.partitions (bm s') !! "t" = Some (partitionMap [record 0 7]) ∧
            brokerManager.brokers (bm s') !! 7%Z = None)
    as (s' & Hrun & Hmap & Hnone) by (eexists; repeat split; computed).
  destruct (Hall _ _ _ _ _ _ _ _ _ _ Hany Hrun (topic "t" [record 0 7])
              (partitionMap [record 0 7]) 0%Z (record 0 7)) as [x Hx].
  - by left.
  - exact Hmap.
  - computed.
  - cbn in Hx. congruence.
Qed.

Lemma refreshTopics_leaders_known_witness :
  ∃ s', refreshTopics ["t"] 5 cold = Some (None, s') ∧
        is_Some (brokerManager.brokers (bm s') !! 2%Z).
Proof.
  assert (∃ s1, sendToAny (metadataRequest.mk ["t"]) new_metadata 5 (refreshing ["t"] cold)
                = Some ((true, None,
                         metadata.mk [b1; b2] [topic "t" [record 0 1; record 1 2]]), s1))
    as [s1 Hany] by (eexists; computed).
  assert (∃ s', refreshTopics ["t"] 5 cold = Some (None, s') ∧
     brokerManager.partitions (bm s') !! "t" = Some (partitionMap [record 0 1; record 1 2]))
    as (s' & Hrun & Hmap) by (eexists; split; computed).
  exists s'. split; [exact Hrun|].
  apply (refreshTopics_leaders_known _ _ _ _ _ _ _ _ Hany Hrun) with
    (t := topic "t" [record 0 1; record 1 2])
    (id_map := partitionMap [record 0 1; record 1 2]) (pid := 1%Z) (p := record 1 2).
  - intros t p Ht Hp. cbn in Ht. apply list_elem_of_singleton in Ht as ->.
    cbn in Hp. apply elem_of_cons in Hp as [-> | Hp]; [by left|].
    apply list_elem_of_singleton in Hp as ->. right; by left.
  - by left.
  - exact Hmap.
  - computed.
Defined.

Lemma sendToPartition_encoding_error_witness :
  ∃ s', sendToPartition "t" 0 "req" [] 5 unencodable
          = Some ((false, Some (EncodingError "message too large"), []), s') ∧
        trace s' = trace unencodable ++ [Sent inSendToPartition b1] ∧
        bm s' = bm unencodable ∧
        brokerManager.brokers (bm s') = brokerManager.brokers (bm unencodable) ∧
        brokerManager.partitions (bm s') = brokerManager.partitions (bm unencodable).
Proof.
  apply (sendToPartition_encoding_error "t" 0 "req" [] 5 unencodable b1 unencodable
           false "message too large" [] []).
  - computed.
  - computed.
Defined.

Lemma partitionsForTopic_unknown_topic_witness :
  ∃ r s' err s1 evs,
    returns (partitionsForTopic "t") cold r s' ∧
    returns (refreshTopic "t") cold err s1 ∧
    trace s' = trace cold ++ evs ∧ refreshes evs = [["t"]] ∧
    bm s' = bm s1 ∧
    match err with
    | Some e => r = Err e
    | None =>
        match brokerManager.partitions (bm s1) !! "t" with
        | None => r = Err (ErrK UNKNOWN_TOPIC_OR_PARTITION)
        | Some id_map => ∃ ids, r = Ok ids ∧ ids ≡ₚ keys id_map
        end
    end.
Proof.
  apply (partitionsForTopic_unknown_topic "t" cold).
  - decided.
  - computed.
Defined.

Lemma sendToPartition_refresh_failure_witness :
  ∃ s2, sendToPartition "t" 0 "req" [] 5 stale_then_down
          = Some ((true, Some OutOfBrokers, ["t"]), s2) ∧
        ∃ evs, trace s2 = trace stale_then_down ++ evs ∧
               sendsFrom inSendToPartition evs = 1.
Proof.
  eexists.
  eapply (sendToPartition_refresh_failure "t" 0 "req" [] 5 stale_then_down b1
            stale_then_down ["t"] []).
  - computed.
  - computed.
  - discriminate.
  - computed.
Defined.

Lemma refreshTopics_partition_error_witness :
  brokerManager.partitions (bm partial) !! "t" ≫= (.!! 2%Z) = Some (record 2 1) ∧
  ∃ s2,
    refreshTopics ["t"] 5 partial = Some (Some (ErrK 9), s2) ∧
    brokerManager.partitions (bm s2) !! "t" = Some (partitionMap [record 0 2]) ∧
    brokerManager.partitions (bm s2) !! "t" ≫= (.!! 2%Z) = None.
Proof.
  split; [computed|].
  destruct (refreshTopics_partition_error ["t"] 5 partial true partial_response
              partial_decoded [topic "a" [record 0 2]]
              (topic "t" [record 0 2; failed 1 2 9; record 2 2])
              [topic "z" [record 0 1]] [record 0 2] (failed 1 2 9) [record 2 2])
    as (s2 & Hrun & Hmap & Hgone & _).
  - computed.
  - reflexivity.
  - decided.
  - reflexivity.
  - reflexivity.
  - decided.
  - discriminate.
  - exists s2. split; [exact Hrun|]. split; [exact Hmap|].
    apply Hgone. decided.
Defined.


(** *** The further properties on the scripted cluster *)

Lemma sendToAny_OutOfBrokers_empties_the_cache_witness :
  ∃ s', sendToAny "req" [] 5 outage = Some ((false, Some OutOfBrokers, []), s') ∧
        brokerManager.defaultBroker (bm s') = None ∧
        brokerManager.brokers (bm s') = ∅.
Proof.
  assert (∃ s', sendToAny "req" [] 5 outage = Some ((false, Some OutOfBrokers, []), s'))
    as [s' Hrun] by (eexists; computed).
  exists s'. split; [exact Hrun|].
  destruct (sendToAny_OutOfBrokers_empties_the_cache "req" [] 5 outage _ _ _ _ Hrun eq_refl)
    as (_ & _ & Hd & Hb & _).
  by split.
Defined.

Lemma sendToAny_answer_comes_from_the_default_witness :
  ∃ s', sendToAny "req" ["old"] 5 failover = Some ((true, None, []), s') ∧
        ∃ bs b, trace s' = trace failover ++ (Sent inSendToAny <$> bs ++ [b]) ∧
                brokerManager.defaultBroker (bm s') = Some b ∧
                (∀ x, x ∈ bs → brokerManager.brokers (bm s') !! broker.id x = None).
Proof.
  assert (∃ s', sendToAny "req" ["old"] 5 failover = Some ((true, None, []), s'))
    as [s' Hrun] by (eexists; computed).
  exists s'. split; [exact Hrun|].
  destruct (sendToAny_answer_comes_from_the_default "req" ["old"] 5 failover _ _ _ _ Hrun)
    as (_ & bs & b & _ & _ & Htr & Hd & Hgone & _); [discriminate|].
  by exists bs, b.
Defined.

Lemma sendToAny_sends_at_most_brokers_plus_one_witness :
  ∃ out s', sendToAny "req" ["old"] 5 failover = Some (out, s') ∧
    ∃ evs, trace s' = trace failover ++ evs ∧
           networkSends evs ≤ size (brokerManager.brokers (bm failover)) + 1.
Proof.
  assert (∃ out s', sendToAny "req" ["old"] 5 failover = Some (out, s'))
    as (out & s' & Hrun) by (eexists _, _; computed).
  exists out, s'. split; [exact Hrun|].
  apply (sendToAny_sends_at_most_brokers_plus_one "req" ["old"] 5 failover out s');
    [decided | exact Hrun].
Defined.

Lemma getValidLeader_returns_the_cached_leader_witness :
  ∃ s', getValidLeader "t" 0 5 cold = Some (Ok b1, s') ∧
        getLeader "t" 0 5 s' = Some (Some b1, s').
Proof.
  assert (∃ s', getValidLeader "t" 0 5 cold = Some (Ok b1, s'))
    as [s' Hrun] by (eexists; computed).
  exists s'. split; [exact Hrun|].
  by apply (getValidLeader_returns_the_cached_leader "t" 0 5 cold (Ok b1) s' Hrun).
Defined.

Lemma partitionsForTopic_cached_witness :
  ∃ ids s',
    (∀ fuel, partitionsForTopic "t" fuel settled = Some (Ok ids, s')) ∧
    bm s' = bm settled ∧ trace s' = trace settled ∧
    NoDup ids ∧ length ids = size (partitionMap [record 0 1]) ∧
    (∀ k, k ∈ ids ↔ is_Some (partitionMap [record 0 1] !! k)).
Proof.
  apply (partitionsForTopic_cached "t" (partitionMap [record 0 1]) settled). computed.
Defined.

Lemma sendToPartition_first_answer_is_final_witness :
  sendToPartition "t" 0 "req" ["old"] 5 settled
    = Some ((true, None, []),
            @mkState cluster (bm settled) [] [Sent inSendToPartition b1]).
Proof.
  apply (sendToPartition_first_answer_is_final "t" 0 "req" ["old"] 5 settled b1
           settled true [] []).
  - computed.
  - computed.
  - reflexivity.
Defined.

Lemma sendToPartition_broker_error_refreshes_witness :
  ∃ s', sendToPartition "t" 0 "req" [] 5 dead_leader = Some ((true, None, []), s') ∧
        ∃ evs, trace s' = trace dead_leader ++
                 Sent inSendToPartition b1 :: Refreshed ["t"] :: evs.
Proof.
  assert (∃ s', sendToPartition "t" 0 "req" [] 5 dead_leader = Some ((true, None, []), s'))
    as [s' Hrun] by (eexists; computed).
  exists s'. split; [exact Hrun|].
  apply (sendToPartition_broker_error_refreshes "t" 0 "req" [] 5 dead_leader b1
           dead_leader false (OtherError "broken pipe") [] (List.tl (world dead_leader))
           (true, None, []) s').
  - decided.
  - computed.
  - computed.
  - reflexivity.
  - exact Hrun.
Defined.

Lemma sendToPartition_unknown_topic_witness :
  ∃ s2, sendToPartition "u" 0 "req" [] 5 unknown
          = Some ((false, Some (ErrK UNKNOWN_TOPIC_OR_PARTITION), []), s2) ∧
        sendsFrom inSendToPartition (trace s2) = sendsFrom inSendToPartition (trace unknown).
Proof.
  assert (∃ s1, sendToAny (metadataRequest.mk ["u"]) new_metadata 5 (refreshing ["u"] unknown)
                = Some ((true, None, metadata.mk [b1] [topic "other" [record 0 1]]), s1))
    as [s1 Hany] by (eexists; computed).
  destruct (sendToPartition_unknown_topic "u" 0 "req" [] 5 unknown _ _ _ eq_refl Hany)
    as (s2 & Hrun & _ & Hsends).
  - decided.
  - decided.
  - by exists s2.
Defined.

Lemma newBrokerManager_outcomes_witness :
  ∃ b w', newBrokerManager me "kafka1" 9092 5 greeting = Some (Ok b, w') ∧
          wf b ∧ brokerManager.defaultBroker b = Some bootstrap.
Proof.
  assert (∃ b w', newBrokerManager me "kafka1" 9092 5 greeting = Some (Ok b, w'))
    as (b & w' & Hrun) by (eexists _, _; computed).
  exists b, w'. split; [exact Hrun|].
  destruct (newBrokerManager_outcomes _ _ _ _ _ _ _ Hrun) as (r0 & w1 & Hnew & Hout).
  injection Hnew as <- <-. by destruct Hout as (Hwf & _ & Hd).
Defined.

Lemma newBrokerManager_unreachable_bootstrap_witness :
  ∃ w', ∀ fuel, 2 ≤ fuel →
    newBrokerManager (Exchange0 := deadMetadata) me "kafka1" 9092 fuel greeting
      = Some (Err OutOfBrokers, w').
Proof.
  apply (newBrokerManager_unreachable_bootstrap (Exchange0 := deadMetadata)
           me "kafka1" 9092 greeting bootstrap greeting).
  - reflexivity.
  - intros cid r w. reflexivity.
Defined.

Lemma wf_is_kept_witness :
  ∃ out s', sendToPartition "t" 0 "req" [] 5 dead_leader = Some (out, s') ∧ wf (bm s').
Proof.
  assert (∃ out s', sendToPartition "t" 0 "req" [] 5 dead_leader = Some (out, s'))
    as (out & s' & Hrun) by (eexists _, _; computed).
  exists out, s'. split; [exact Hrun|].
  destruct (wf_is_kept (Q := string) (R := list string) 5 dead_leader s')
    as (_ & _ & _ & _ & _ & _ & Hkept); [decided|].
  by eapply Hkept.
Defined.


Lemma sendToPartition_refreshes_the_stale_topics_witness :
  ∃ out s', sendToPartition "t" 0 "req" [] 5 moved = Some (out, s') ∧
    ∃ evs, trace s' = trace moved ++
             Sent inSendToPartition b1 :: Refreshed ["t"] :: evs.
Proof.
  assert (∃ out s', sendToPartition "t" 0 "req" [] 5 moved = Some (out, s'))
    as (out & s' & Hrun) by (eexists _, _; computed).
  exists out, s'. split; [exact Hrun|].
  change ["t"] with (staleTopics (R := list string) ["t"]) at 1.
  apply (sendToPartition_refreshes_the_stale_topics "t" 0 "req" [] 5 moved b1 moved
           ["t"] (List.tl (world moved)) out s').
  - computed.
  - computed.
  - discriminate.
  - exact Hrun.
Defined.

Lemma sendToPartition_answer_comes_from_the_leader_witness :
  ∃ s', sendToPartition "t" 0 "req" [] 5 dead_leader = Some ((true, None, []), s') ∧
    ∃ evs b, trace s' = trace dead_leader ++ evs ++ [Sent inSendToPartition b] ∧
             getLeader "t" 0 5 s' = Some (Some b, s').
Proof.
  assert (∃ s', sendToPartition "t" 0 "req" [] 5 dead_leader = Some ((true, None, []), s'))
    as [s' Hrun] by (eexists; computed).
  exists s'. split; [exact Hrun|].
  apply (sendToPartition_answer_comes_from_the_leader "t" 0 "req" [] 5 dead_leader
           true [] s' Hrun).
Defined.

Lemma refreshTopics_then_getLeader_witness :
  ∃ s', refreshTopics ["t"] 5 cold = Some (None, s') ∧
        getLeader "t" 1 5 s' = Some (Some b2, s').
Proof.
  assert (∃ s1, sendToAny (metadataRequest.mk ["t"]) new_metadata 5 (refreshing ["t"] cold)
                = Some ((true, None,
                         metadata.mk [b1; b2] [topic "t" [record 0 1; record 1 2]]), s1))
    as [s1 Hany] by (eexists; computed).
  apply (refreshTopics_then_getLeader ["t"] 5 cold _ _ _
           (topic "t" [record 0 1; record 1 2]) (record 1 2) b2 Hany).
  - decided.
  - decided.
  - decided.
  - decided.
  - by left.
  - right; by left.
  - right; by left.
  - reflexivity.
Defined.

End OnTheScriptedCluster.
